(** * IndexTree: the bundle browser and dat-file row decoder

  A shallow embedding of [src/lib/components/IndexTree.svelte]: the
  component state, its directory navigation ([loadDirContents], [goUp]),
  the decode pipeline ([loadFileContent], [extractRows]) and the
  interleaving of overlapping [loadFileContent] requests.

  Strings are Rocq strings, JavaScript objects used as records keyed by
  column name are [gmap string _], arrays are lists. *)

From Stdlib Require Import Ascii.
From stdpp Require Import gmap strings list fin_maps pretty sorting.

(** ** JavaScript string primitives used by the component *)

Module Js.

(** The rest of [s] behind [p], when [s] starts with [p]. *)
Fixpoint strip_prefix (p s : string) : option string :=
  match p, s with
  | EmptyString, _ => Some s
  | String a p', String b s' =>
      if Ascii.eqb a b then strip_prefix p' s' else None
  | String _ _, EmptyString => None
  end.

(** [s.includes(pat)]: [pat] occurs somewhere in [s]. *)
Fixpoint includes (s pat : string) : bool :=
  match strip_prefix pat s with
  | Some _ => true
  | None => match s with
            | EmptyString => false
            | String _ s' => includes s' pat
            end
  end.

(** [s.replace(pat, '')] with a string pattern: only the first (leftmost)
    occurrence of [pat] is removed; [s] is returned as it is when [pat]
    does not occur. *)
Fixpoint replace_empty (pat s : string) : string :=
  match strip_prefix pat s with
  | Some rest => rest
  | None => match s with
            | EmptyString => EmptyString
            | String c s' => String c (replace_empty pat s')
            end
  end.

(** [s.endsWith(suffix)]: some tail of [s] is [suffix]. *)
Fixpoint endsWith (s suffix : string) : bool :=
  if decide (s = suffix) then true
  else match s with
       | EmptyString => false
       | String _ s' => endsWith s' suffix
       end.

(** [s.split(sep)] for a one-character separator: never the empty list;
    [''.split('/')] is [['']]. *)
Fixpoint split (sep : Ascii.ascii) (s : string) : list string :=
  match s with
  | EmptyString => [EmptyString]
  | String c s' =>
      if Ascii.eqb c sep then EmptyString :: split sep s'
      else match split sep s' with
           | [] => [String c EmptyString]
           | part :: parts => String c part :: parts
           end
  end.

(** [parts.join(sep)]. *)
Fixpoint join (sep : string) (parts : list string) : string :=
  match parts with
  | [] => EmptyString
  | [part] => part
  | part :: parts' => part +:+ sep +:+ join sep parts'
  end.

(** [parts.pop()], keeping the array that is left. *)
Definition pop {A} (parts : list A) : list A := removelast parts.

(** Truthiness of a string: every string but the empty one. *)
Definition truthy (s : string) : bool := bool_decide (s ≠ EmptyString).

(** The character [c] occurs in [s]. *)
Fixpoint has_char (c : Ascii.ascii) (s : string) : bool :=
  match s with
  | EmptyString => false
  | String b s' => Ascii.eqb b c || has_char c s'
  end.

End Js.

(** ** Data model *)

(** A [Uint8Array]: bytes as integers in [0, 256). *)
Definition Bytes := list Z.

(** A reading of [performance.now()]; the readings reach the console
    only. *)
Definition Time := Z.
Bind Scope Z_scope with Time.

(** The values a decoded cell can hold (the source types them [any]). *)
#[warnings="-register-all"] Inductive JsValue :=
| JUndefined
| JNull
| JBool (b : bool)
| JNum (n : Z)
| JStr (s : string)
| JArr (elements : list JsValue).

(** A row: the own properties of a plain object [{ [key: string]: any }]. *)
Abbreviation Row := (gmap string JsValue).

(** Modelled from the spec: the column types of a header, declared with
    [Header] in [$lib/dat-viewer/headers], which is not among the sources;
    the variants are those of the spec's data model. *)
Inductive ColumnType :=
| TBoolean
| TInteger (width : nat)
| TFloat32
| TFloat64
| TString
| TArray (element : ColumnType)
| TForeignKey.

Module Header.
(** Modelled from the spec: the type [Header] of [$lib/dat-viewer/headers],
    with the fields of the spec's data model.  The component reads and
    writes [name] only; a [name] that is [null], [undefined] or missing is
    [None]. *)
Record t := mk {
  name : option string;
  offset : nat;
  type : ColumnType;
  length : option nat
}.

(** [{ ...header, name: n }] *)
Definition with_name (n : string) (header : t) : t :=
  {| name := Some n; offset := offset header; type := type header;
     length := length header |}.

(** [header.name] as a condition: a string other than the empty one. *)
Definition named (header : t) : option string :=
  match name header with
  | Some n => if Js.truthy n then Some n else None
  | None => None
  end.
End Header.

Module DatFile.
(** The parsed table of [pathofexile-dat]; the component reads [rowCount]
    and hands the value on to [readColumn]. *)
Record t := mk {
  rowCount : nat;
  rowLength : nat;
  dataFixed : Bytes;
  dataVariable : Bytes
}.
End DatFile.

Module Dir.
(** What [index.getDirContent] returns and [dirContents] holds. *)
Record t := mk { files : list string; dirs : list string }.
End Dir.

Module HeadersResult.
(** What [fromSerializedHeaders] returns when it returns an object. *)
Record t := mk { headers : list Header.t }.
End HeadersResult.

(** A call that returns or throws. *)
Inductive Result (A : Type) :=
| Ok (a : A)
| Throw (message : string).
Arguments Ok {A} a.
Arguments Throw {A} message.

(** How the promise of an [async] function is settled. *)
Inductive Outcome :=
| Resolved
| Rejected (message : string).

(** What the component writes to the console. *)
Inductive ConsoleEntry :=
| ConsoleWarn (message : string)
| ConsoleLogExtractTime (startTime endTime : Time).

(** The collaborators the component calls: the bundle index, the schema
    database, the dat parser and the worker. *)
Record Collaborators := {
  ColumnStats : Type;
  SerializedHeaders : Type;
  index_getRootDirs : option (list string);
  index_getDirContent : string → option Dir.t;
  index_loadFileContent : string → Bytes;
  readDatFile : string → Bytes → Result DatFile.t;
  analyzeDatFile : DatFile.t → ColumnStats;
  db_findByName : string → SerializedHeaders;
  fromSerializedHeaders :
    SerializedHeaders → ColumnStats → DatFile.t → option HeadersResult.t;
  readColumn : Header.t → DatFile.t → list JsValue
}.

(** ** Component state: the [let] variables of the script block, and the
    console.  [loader], [index] and [db] are the collaborators;
    [windowHeight] and [showBytesByColumn] concern layout only. *)
Record State := mkState {
  dirs : list string;
  dirContents : Dir.t;
  fileContent : option Bytes;
  headers : list Header.t;
  currentPath : string;
  datFile : option DatFile.t;
  rows : list Row;
  searchTerm : string;
  loading : bool;
  console : list ConsoleEntry
}.

Definition set_dirs (v : list string) (s : State) : State :=
  mkState v (dirContents s) (fileContent s) (headers s) (currentPath s)
    (datFile s) (rows s) (searchTerm s) (loading s) (console s).
Definition set_dirContents (v : Dir.t) (s : State) : State :=
  mkState (dirs s) v (fileContent s) (headers s) (currentPath s)
    (datFile s) (rows s) (searchTerm s) (loading s) (console s).
Definition set_fileContent (v : option Bytes) (s : State) : State :=
  mkState (dirs s) (dirContents s) v (headers s) (currentPath s)
    (datFile s) (rows s) (searchTerm s) (loading s) (console s).
Definition set_headers (v : list Header.t) (s : State) : State :=
  mkState (dirs s) (dirContents s) (fileContent s) v (currentPath s)
    (datFile s) (rows s) (searchTerm s) (loading s) (console s).
Definition set_currentPath (v : string) (s : State) : State :=
  mkState (dirs s) (dirContents s) (fileContent s) (headers s) v
    (datFile s) (rows s) (searchTerm s) (loading s) (console s).
Definition set_datFile (v : option DatFile.t) (s : State) : State :=
  mkState (dirs s) (dirContents s) (fileContent s) (headers s)
    (currentPath s) v (rows s) (searchTerm s) (loading s) (console s).
Definition set_rows (v : list Row) (s : State) : State :=
  mkState (dirs s) (dirContents s) (fileContent s) (headers s)
    (currentPath s) (datFile s) v (searchTerm s) (loading s) (console s).
Definition set_loading (v : bool) (s : State) : State :=
  mkState (dirs s) (dirContents s) (fileContent s) (headers s)
    (currentPath s) (datFile s) (rows s) (searchTerm s) v (console s).
Definition console_write (entry : ConsoleEntry) (s : State) : State :=
  mkState (dirs s) (dirContents s) (fileContent s) (headers s)
    (currentPath s) (datFile s) (rows s) (searchTerm s) (loading s)
    (console s ++ [entry]).

(** The variables as the script block initialises them. *)
Definition initial : State :=
  mkState [] (Dir.mk [] []) None [] EmptyString None [] EmptyString false [].

(** What the second [<section>] of the template shows. *)
Inductive View :=
| DataTable (rows : list Row) (headers : list Header.t)
| LoadingSpinner.

Definition view (s : State) : View :=
  if negb (loading s) then DataTable (rows s) (headers s) else LoadingSpinner.

(** ** The component's functions *)

Section component.
Context (E : Collaborators).

(** The predicate of the reactive [filteredFiles]. *)
Definition matchesSearch (searchTerm file : string) : bool :=
  if negb (Js.truthy searchTerm) then true
  else Js.includes file searchTerm.

(** The reactive [filteredFiles]. *)
Definition filteredFiles (s : State) : list string :=
  filter (λ file, Is_true (matchesSearch (searchTerm s) file))
         (Dir.files (dirContents s)).

(** [loadDirContents]: it has no [await], so a call runs to its end.  The
    assignment to [contents.files] writes to the object that the index
    returned; the index is a function of the path here. *)
Definition loadDirContents (dirPath : string) (s : State) : State :=
  let s := set_currentPath dirPath s in
  let contents := default (Dir.mk [] []) (index_getDirContent E dirPath) in
  let contents :=
    Dir.mk (filter (λ file, Is_true (Js.endsWith file ".dat64"))
                   (Dir.files contents))
           (Dir.dirs contents) in
  set_dirContents
    {| Dir.dirs := Dir.dirs contents; Dir.files := Dir.files contents |} s.

(** [goUp] *)
Definition goUp (s : State) : State :=
  if Js.truthy (currentPath s) then
    let parts := Js.split "/"%char (currentPath s) in
    let parts := Js.pop parts in
    loadDirContents (Js.join "/" parts) s
  else s.

(** The state once [onMount] has run. *)
Definition mounted : State :=
  let s := set_loading false initial in
  let s := set_currentPath EmptyString s in
  let s := set_dirs (default [] (index_getRootDirs E)) s in
  loadDirContents (currentPath s) s.

(** [filePath.replace('data/', '').replace('.dat64', '')] *)
Definition schemaName (filePath : string) : string :=
  Js.replace_empty ".dat64" (Js.replace_empty "data/" filePath).

(** [`Unnamed ${index}`] *)
Definition placeholder (index : nat) : string := "Unnamed " +:+ pretty index.

(** The [map] of [loadFileContent] that names the unnamed headers. *)
Definition assignNames (hs : list Header.t) : list Header.t :=
  imap (λ index header,
          Header.with_name
            (match Header.named header with
             | Some n => n
             | None => placeholder index
             end) header) hs.

(** [headers.entries()] *)
Definition entries {A} (l : list A) : list (nat * A) := imap pair l.

(** [columns[index][i]]: [undefined] beyond the end of the column.
    ([columns] has one column per header, so [columns[index]] exists for
    every index that [entries] yields.) *)
Definition cell (columns : list (list JsValue)) (index i : nat) : JsValue :=
  match columns !! index with
  | Some column => default JUndefined (column !! i)
  | None => JUndefined
  end.

(** [row[key] = value] on a plain object: the key [__proto__] reaches the
    accessor of [Object.prototype] and creates no own property. *)
Definition assign (row : Row) (key : string) (value : JsValue) : Row :=
  if decide (key = "__proto__") then row else <[key := value]> row.

(** The body of the outer loop of [extractRows]: the row of index [i]. *)
Definition extractRow (columns : list (list JsValue))
    (headers : list Header.t) (i : nat) : Row :=
  foldl (λ row '(index, header),
           let value := cell columns index i in
           match Header.named header with
           | Some key => assign row key value
           | None => row
           end)
        ∅ (entries headers).

(** [extractRows]: the rows, and the line it logs. *)
Definition extractRows (startTime endTime : Time) (datFile : DatFile.t)
    (headers : list Header.t) : list Row * ConsoleEntry :=
  let columns := (λ header, readColumn E header datFile) <$> headers in
  let rows := extractRow columns headers <$> seq 0 (DatFile.rowCount datFile) in
  (rows, ConsoleLogExtractTime startTime endTime).

(** [loadFileContent], run from its call to its end with no other request
    in between.  [startTime] and [endTime] are the two clock readings that
    [extractRows] takes. *)
Definition loadFileContent (startTime endTime : Time) (filePath : string)
    (s : State) : Outcome * State :=
  let s := set_loading true s in
  let content := index_loadFileContent E filePath in
  let s := set_fileContent (Some content) s in
  let schemaName := schemaName filePath in
  match readDatFile E filePath content with
  | Throw message => (Rejected message, s)
  | Ok d =>
      let s := set_datFile (Some d) s in
      let columnStats := analyzeDatFile E d in
      let serializedHeaders := db_findByName E schemaName in
      match fromSerializedHeaders E serializedHeaders columnStats d with
      | Some headersResult =>
          let s := set_headers
                     (assignNames (HeadersResult.headers headersResult)) s in
          let '(rs, line) := extractRows startTime endTime d (headers s) in
          let s := console_write line s in
          let s := set_rows rs s in
          (Resolved, set_loading false s)
      | None =>
          (Resolved,
           console_write
             (ConsoleWarn ("Invalid headers for file: " +:+ schemaName)) s)
      end
  end.

End component.

(** ** Overlapping requests

    [loadFileContent] is [async]: it runs up to an [await], gives way, and
    is resumed later, and a click can start another call in between.  A
    request is the program point it waits at, with the local constants it
    holds; [fileContent], [datFile], [headers], [rows] and [loading] belong
    to the component and are shared by all requests.  Awaits in a row
    between which a request touches no component variable (the three
    imports, the awaits inside [extractRows]) are one program point. *)

Section requests.
Context (E : Collaborators).

(** Where a request waits: for the file content (line 75), for the
    imports (lines 81 to 83), for the worker's statistics (line 87), for
    the schema database (line 90), for [extractRows] (line 105); or it has
    settled.  [AwaitAnalyze] holds the statistics of the table the worker
    was called with, [AwaitExtract] the arguments [extractRows] was called
    with. *)
Inductive Pc :=
| AwaitContent
| AwaitImports (schemaName : string)
| AwaitAnalyze (schemaName : string) (columnStats : ColumnStats E)
| AwaitFind (schemaName : string) (columnStats : ColumnStats E)
| AwaitExtract (datFile : DatFile.t) (headers : list Header.t)
| Settled (outcome : Outcome).

Record Request := mkRequest { filePath : string; pc : Pc }.

(** The code of [loadFileContent] from one program point to the next. *)
Definition resume (startTime endTime : Time) (filePath : string) (pc : Pc)
    (s : State) : Pc * State :=
  match pc with
  | AwaitContent =>
      let s := set_fileContent (Some (index_loadFileContent E filePath)) s in
      (AwaitImports (schemaName filePath), s)
  | AwaitImports schemaName =>
      match fileContent s with
      | Some content =>
          match readDatFile E filePath content with
          | Throw message => (Settled (Rejected message), s)
          | Ok d =>
              let s := set_datFile (Some d) s in
              (AwaitAnalyze schemaName (analyzeDatFile E d), s)
          end
      | None => (Settled (Rejected "fileContent is null"), s)
      end
  | AwaitAnalyze schemaName columnStats => (AwaitFind schemaName columnStats, s)
  | AwaitFind schemaName columnStats =>
      let serializedHeaders := db_findByName E schemaName in
      match datFile s with
      | Some d =>
          match fromSerializedHeaders E serializedHeaders columnStats d with
          | Some headersResult =>
              let s := set_headers
                         (assignNames (HeadersResult.headers headersResult))
                         s in
              (AwaitExtract d (headers s), s)
          | None =>
              (Settled Resolved,
               console_write
                 (ConsoleWarn ("Invalid headers for file: " +:+ schemaName)) s)
          end
      | None => (Settled (Rejected "datFile is null"), s)
      end
  | AwaitExtract d hs =>
      let '(rs, line) := extractRows E startTime endTime d hs in
      let s := console_write line s in
      let s := set_rows rs s in
      (Settled Resolved, set_loading false s)
  | Settled outcome => (Settled outcome, s)
  end.

(** The component with the requests in flight, oldest first. *)
Record System := mkSystem { st : State; requests : list Request }.

(** A click on a file starts a request; the event loop resumes a request. *)
Inductive Event :=
| Click (filePath : string)
| Resume (request : nat) (startTime endTime : Time).

Definition exec (ev : Event) (sys : System) : System :=
  match ev with
  | Click filePath =>
      {| st := set_loading true (st sys);
         requests := requests sys ++ [mkRequest filePath AwaitContent] |}
  | Resume k startTime endTime =>
      match requests sys !! k with
      | Some r =>
          let '(pc', s') :=
            resume startTime endTime (filePath r) (pc r) (st sys) in
          {| st := s';
             requests := <[k := mkRequest (filePath r) pc']> (requests sys) |}
      | None => sys
      end
  end.

Definition run (evs : list Event) (sys : System) : System :=
  foldl (λ sys ev, exec ev sys) sys evs.

(** The mounted component, nothing in flight. *)
Definition boot : System := {| st := mounted E; requests := [] |}.

(** One request resumed from its click to its end, nothing in between. *)
Definition uninterrupted (k : nat) (startTime endTime : Time)
    (filePath : string) : list Event :=
  Click filePath :: replicate 5 (Resume k startTime endTime).

(** The property that results of a superseded request are not delivered:
    in an execution from the mounted component, once a file has been
    clicked, resuming a request issued earlier for another file changes
    neither [rows] nor [headers]. *)
Definition superseded_never_delivered : Prop :=
  ∀ (before after : list Event) (newer : string) (k : nat) (r : Request)
    (startTime endTime : Time),
    requests (run before boot) !! k = Some r →
    filePath r ≠ newer →
    let sys := run (before ++ Click newer :: after) boot in
    let sys' := exec (Resume k startTime endTime) sys in
    rows (st sys') = rows (st sys) ∧ headers (st sys') = headers (st sys).

End requests.

Arguments AwaitContent {E}.
Arguments AwaitImports {E} schemaName.
Arguments AwaitExtract {E} datFile headers.
Arguments Settled {E} outcome.
Arguments filePath {E} r.
Arguments pc {E} r.
Arguments st {E} s.
Arguments requests {E} s.

(** ** A small world of collaborators

    The parser, the schema matcher and the column decoder are not among the
    sources.  The theorems below hold for any collaborators; this instance
    serves to run the component on concrete files. *)

Module World.

(** Modelled from the spec: the byte width of a column type ([width(type)]
    of the data model); the reference types have the widths of the 64-bit
    dat layout. *)
Definition width (t : ColumnType) : nat :=
  match t with
  | TBoolean => 1
  | TInteger w => w
  | TFloat32 => 4
  | TFloat64 => 8
  | TString => 8
  | TArray _ => 16
  | TForeignKey => 16
  end.

(** The little-endian number held by some bytes. *)
Definition le (bs : Bytes) : Z := foldr (λ b acc, (b + 256 * acc)%Z) 0%Z bs.

(** Where the row section ends: the first run of eight [0xBB] bytes. *)
Fixpoint boundary (bs : Bytes) : option nat :=
  if decide (take 8 bs = replicate 8 187%Z) then Some 0
  else match bs with
       | [] => None
       | _ :: bs' => S <$> boundary bs'
       end.

(** Modelled from the spec: [readDatFile] of [pathofexile-dat], as the
    spec's Binary Table View: the row count comes from the preamble, the
    stride is the length of the row section divided by the row count, and a
    row section that the row count does not divide is a [MalformedTable]. *)
Definition readDatFile (filePath : string) (content : Bytes)
    : Result DatFile.t :=
  let rowCount := Z.to_nat (le (take 4 content)) in
  let body := drop 4 content in
  match boundary body with
  | None => Throw "MalformedTable"
  | Some k =>
      if decide (rowCount = 0) then
        if decide (k = 0) then Ok (DatFile.mk 0 0 [] (drop k body))
        else Throw "MalformedTable"
      else if decide (k `mod` rowCount = 0) then
        Ok (DatFile.mk rowCount (k `div` rowCount) (take k body) (drop k body))
      else Throw "MalformedTable"
  end.

(** Modelled from the spec: [analyzeDatFile] of [$lib/worker/interface];
    of the statistics only the observed stride is kept. *)
Definition analyzeDatFile (d : DatFile.t) : nat := DatFile.rowLength d.

Definition fits (stride : nat) (header : Header.t) : bool :=
  bool_decide (Header.offset header + width (Header.type header) ≤ stride).

(** Modelled from the spec: [fromSerializedHeaders] of
    [$lib/dat-viewer/headers], as the spec's Schema Matcher: the headers
    are accepted when every one of them ends within the stride, and there
    is no result otherwise, nor when the database has no entry. *)
Definition fromSerializedHeaders (serialized : option (list Header.t))
    (stride : nat) (d : DatFile.t) : option HeadersResult.t :=
  match serialized with
  | Some hs => if forallb (fits stride) hs then Some (HeadersResult.mk hs)
               else None
  | None => None
  end.

Definition rowBytes (d : DatFile.t) (i : nat) : Bytes :=
  take (DatFile.rowLength d) (drop (i * DatFile.rowLength d) (DatFile.dataFixed d)).

(** Modelled from the spec: [readColumn] of [pathofexile-dat], as the
    spec's Column Decoder for the scalar integer and boolean types; cells
    of the other types are left [null]. *)
Definition readColumn (header : Header.t) (d : DatFile.t) : list JsValue :=
  (λ i,
     let field := take (width (Header.type header))
                       (drop (Header.offset header) (rowBytes d i)) in
     match Header.type header with
     | TBoolean => JBool (bool_decide (le field ≠ 0%Z))
     | TInteger _ => JNum (le field)
     | _ => JNull
     end) <$> seq 0 (DatFile.rowCount d).

(** A file: preamble, rows, boundary marker, heap. *)
Definition encode (tableRows : list Bytes) (heap : Bytes) : Bytes :=
  [Z.of_nat (List.length tableRows); 0; 0; 0]%Z
  ++ concat tableRows ++ replicate 8 187%Z ++ heap.

Definition statsBytes : Bytes :=
  encode [[1; 0; 0; 0; 10; 0; 0; 0]; [2; 0; 0; 0; 20; 0; 0; 0];
          [3; 0; 0; 0; 30; 0; 0; 0]]%Z [].

Definition modsBytes : Bytes :=
  encode [[7; 0; 0; 0; 8; 0; 0; 0]; [9; 0; 0; 0; 5; 0; 0; 0]]%Z [].

Definition int4 (name : option string) (offset : nat) : Header.t :=
  Header.mk name offset (TInteger 4) None.

Definition index_loadFileContent (filePath : string) : Bytes :=
  if decide (filePath = "data/mods.dat64") then modsBytes
  else if decide (filePath ∈ ["data/stats.dat64"; "data/drift.dat64";
                              "data/tags.dat64"]) then statsBytes
  else [].

Definition db_findByName (schemaName : string) : option (list Header.t) :=
  if decide (schemaName = "stats") then
    Some [int4 (Some "A") 0; int4 (Some "B") 4]
  else if decide (schemaName = "mods") then
    Some [int4 None 0; int4 None 4]
  else if decide (schemaName = "drift") then
    Some [int4 (Some "A") 0; int4 (Some "B") 8]
  else if decide (schemaName = "tags") then
    Some [int4 (Some "Id") 0; int4 (Some "Id") 4]
  else None.

Definition index_getDirContent (dirPath : string) : option Dir.t :=
  if decide (dirPath = EmptyString) then
    Some (Dir.mk ["_.index.bin"] ["data"; "metadata"])
  else if decide (dirPath = "data") then
    Some (Dir.mk ["data/stats.dat64"; "data/mods.dat64"; "data/drift.dat64";
                  "data/tags.dat64"; "data/stats.dat"; "data/notes.txt"]
                 ["data/french"])
  else None.

(** [statsBytes] and [modsBytes], parsed. *)
Definition statsTable : DatFile.t :=
  DatFile.mk 3 8
    [1; 0; 0; 0; 10; 0; 0; 0; 2; 0; 0; 0; 20; 0; 0; 0;
     3; 0; 0; 0; 30; 0; 0; 0]%Z
    (replicate 8 187%Z).

Definition modsTable : DatFile.t :=
  DatFile.mk 2 8 [7; 0; 0; 0; 8; 0; 0; 0; 9; 0; 0; 0; 5; 0; 0; 0]%Z
    (replicate 8 187%Z).

(** Two clicks in a row: [data/stats.dat64] first, [data/mods.dat64]
    second; the content of the second file arrives first, and the second
    request runs to its end before the first is resumed. *)
Definition overlapping : list Event :=
  [Click "data/stats.dat64"; Click "data/mods.dat64"]
  ++ replicate 5 (Resume 1 0 0) ++ replicate 5 (Resume 0 0 0).

Definition collaborators : Collaborators :=
  Build_Collaborators nat (option (list Header.t))
    (Some ["data"; "metadata"]) index_getDirContent index_loadFileContent
    readDatFile analyzeDatFile db_findByName fromSerializedHeaders readColumn.

End World.

(** ** Notions the statements below are written with *)

(** The schema name as the specification words it: the directory prefix
    taken from the front of the path and the extension from its end. *)
Definition stripFront (prefix s : string) : string :=
  default s (Js.strip_prefix prefix s).

Definition stripEnd (suffix s : string) : string :=
  if Js.endsWith s suffix
  then String.substring 0 (String.length s - String.length suffix) s
  else s.

Definition schemaName_spec (filePath : string) : string :=
  stripEnd ".dat64" (stripFront "data/" filePath).

(** The keys that the headers give a row, in header order. *)
Definition keys (hs : list Header.t) : list string :=
  filter (λ key, key ≠ "__proto__") (omap Header.named hs).

(** The positions of the headers with no name. *)
Definition unnamedPositions (hs : list Header.t) : list nat :=
  (entries hs ≫= λ '(index, header),
     match Header.named header with
     | Some _ => []
     | None => [index]
     end).

(** The cell of row [i] in the column of [header]. *)
Definition cellOf (E : Collaborators) (d : DatFile.t) (i : nat)
    (header : Header.t) : JsValue :=
  default JUndefined (readColumn E header d !! i).

(** What one header does to the row of index [i]. *)
Definition put (E : Collaborators) (d : DatFile.t) (i : nat) (row : Row)
    (header : Header.t) : Row :=
  match Header.named header with
  | Some key => assign row key (cellOf E d i header)
  | None => row
  end.

(** The assignments that create or overwrite an own property of the row of
    index [i], in header order. *)
Definition pairs (E : Collaborators) (d : DatFile.t) (i : nat)
    (hs : list Header.t) : list (string * JsValue) :=
  omap (λ header,
          match Header.named header with
          | Some key => if decide (key = "__proto__") then None
                        else Some (key, cellOf E d i header)
          | None => None
          end) hs.

(** *** Properties that the proofs below settle

    Each is stated here as a proposition over the component, to be proved
    or refuted. *)


(** Two headers with no name get [Unnamed 0] and [Unnamed 1], wherever
    they stand among the named ones. *)
Definition placeholders_are_0_and_1 : Prop :=
  ∀ (hs : list Header.t) (i j : nat),
    unnamedPositions hs = [i; j] →
    Header.name <$> assignNames hs !! i = Some (Some "Unnamed 0")
    ∧ Header.name <$> assignNames hs !! j = Some (Some "Unnamed 1").


(** A file whose headers do not match is reported to the caller as a
    failure, and the component is left with no rows. *)
Definition mismatch_is_reported (E : Collaborators) : Prop :=
  ∀ (startTime endTime : Time) (filePath : string) (s : State)
    (d : DatFile.t),
    readDatFile E filePath (index_loadFileContent E filePath) = Ok d →
    fromSerializedHeaders E (db_findByName E (schemaName filePath))
      (analyzeDatFile E d) d = None →
    (∃ message,
       (loadFileContent E startTime endTime filePath s).1 = Rejected message)
    ∧ rows (loadFileContent E startTime endTime filePath s).2 = [].

(** The rows do not depend on the order in which the headers are given. *)
Definition header_order_is_irrelevant (E : Collaborators) : Prop :=
  ∀ (startTime endTime : Time) (d : DatFile.t) (hs hs' : list Header.t),
    hs ≡ₚ hs' →
    (extractRows E startTime endTime d (assignNames hs)).1
    = (extractRows E startTime endTime d (assignNames hs')).1.

(** The collaborators of [World], for short. *)
Abbreviation W := World.collaborators.

(** ** Further parts of the component *)

(** [showBytesByColumn], a [boolean[]] that starts empty: an array whose
    elements can be holes; [None] is [undefined]. *)
Abbreviation Toggles := (list (option bool)).

(** [array[index]]: [undefined] at a hole and beyond the end. *)
Definition element {A} (array : list (option A)) (index : nat) : option A :=
  match array !! index with
  | Some v => v
  | None => None
  end.

(** [!v] for a boolean or [undefined]. *)
Definition js_not (v : option bool) : bool :=
  match v with
  | Some b => negb b
  | None => true
  end.

(** [array[index] = v]: beyond the end the array grows, with holes up to
    [index]. *)
Definition array_set {A} (array : list (option A)) (index : nat) (v : A)
    : list (option A) :=
  if decide (index < length array) then <[index := Some v]> array
  else array ++ replicate (index - length array) None ++ [Some v].

(** [toggleColumn] *)
Definition toggleColumn (index : nat) (showBytesByColumn : Toggles) : Toggles :=
  array_set showBytesByColumn index (js_not (element showBytesByColumn index)).

(** The label of a file button in the template,
    [filteredFiles[index].split('/').pop()]; [None] is [undefined]. *)
Definition fileLabel (file : string) : option string :=
  last (Js.split "/" file).

(** Whether the template shows the Go Up button: [{#if currentPath}]. *)
Definition showsGoUp (s : State) : bool := Js.truthy (currentPath s).



(** A request that is past the point where it assigned [fileContent]. *)
Definition pastContent {E : Collaborators} (r : Request E) : bool :=
  match pc r with
  | AwaitImports _ | AwaitAnalyze _ _ _ | AwaitFind _ _ _ => true
  | _ => false
  end.

(** A request that is past the point where it assigned [datFile]. *)
Definition pastParse {E : Collaborators} (r : Request E) : bool :=
  match pc r with
  | AwaitAnalyze _ _ _ | AwaitFind _ _ _ => true
  | _ => false
  end.

(** What the shared variables hold while requests are under way: no
    request is past the point where [fileContent] is assigned while the
    variable is still [null], and likewise for [datFile]. *)
Definition variablesAssigned {E : Collaborators} (sys : System E) : Prop :=
  (fileContent (st sys) = None →
   Forall (λ r, pastContent r = false) (requests sys))
  ∧ (datFile (st sys) = None →
     Forall (λ r, pastParse r = false) (requests sys)).



(** The collaborators of [World] with a column decoder that stops after
    the first row. *)
Definition shortColumns : Collaborators :=
  Build_Collaborators nat (option (list Header.t))
    (Some ["data"; "metadata"]) World.index_getDirContent
    World.index_loadFileContent World.readDatFile World.analyzeDatFile
    World.db_findByName World.fromSerializedHeaders
    (λ header d, take 1 (World.readColumn header d)).

(** * Proofs *)
(** ** Facts about the string primitives *)

Section js_facts.
Implicit Types s p r pat suffix : string.

Lemma strip_prefix_app p r : Js.strip_prefix p (p +:+ r) = Some r.
Proof.
  induction p as [|a p IH]; simpl; [by destruct r|].
  by rewrite Ascii.eqb_refl.
Qed.

Lemma strip_prefix_Some p s r :
  Js.strip_prefix p s = Some r → s = p +:+ r.
Proof.
  revert s. induction p as [|a p IH]; intros s; simpl.
  - destruct s; naive_solver.
  - destruct s as [|b s]; [done|].
    destruct (Ascii.eqb_spec a b) as [->|]; [|done].
    intros ->%IH. done.
Qed.

Lemma replace_empty_unfold pat s :
  Js.replace_empty pat s =
  match Js.strip_prefix pat s with
  | Some rest => rest
  | None => match s with
            | EmptyString => EmptyString
            | String c s' => String c (Js.replace_empty pat s')
            end
  end.
Proof. by destruct s. Qed.

Lemma replace_empty_prefix p r : Js.replace_empty p (p +:+ r) = r.
Proof. by rewrite replace_empty_unfold, strip_prefix_app. Qed.

Lemma replace_empty_absent pat s :
  Js.includes s pat = false → Js.replace_empty pat s = s.
Proof.
  induction s as [|c s IH]; simpl.
  - by destruct (Js.strip_prefix pat EmptyString).
  - destruct (Js.strip_prefix pat (String c s)); [done|].
    intros ?. f_equal. auto.
Qed.

Lemma endsWith_unfold s suffix :
  Js.endsWith s suffix =
  if decide (s = suffix) then true
  else match s with
       | EmptyString => false
       | String _ s' => Js.endsWith s' suffix
       end.
Proof. by destruct s. Qed.

Lemma endsWith_refl s : Js.endsWith s s = true.
Proof. rewrite endsWith_unfold. by case_decide. Qed.

Lemma endsWith_app p suffix : Js.endsWith (p +:+ suffix) suffix = true.
Proof.
  induction p as [|a p IH]; [apply endsWith_refl|].
  rewrite endsWith_unfold. case_decide; [done|]. exact IH.
Qed.

Lemma endsWith_inv s suffix :
  Js.endsWith s suffix = true → ∃ p, s = p +:+ suffix.
Proof.
  induction s as [|a s IH]; rewrite endsWith_unfold; case_decide as Heq.
  - intros _. exists EmptyString. by subst.
  - done.
  - intros _. exists EmptyString. by rewrite <-Heq.
  - intros [p ->]%IH. by exists (String a p).
Qed.

Lemma endsWith_spec s suffix :
  Js.endsWith s suffix = true ↔ ∃ p, s = p +:+ suffix.
Proof.
  split; [apply endsWith_inv|]. intros [p ->]. apply endsWith_app.
Qed.

Lemma split_no_sep sep s : Js.has_char sep s = false → Js.split sep s = [s].
Proof.
  induction s as [|c s IH]; simpl; [done|].
  intros [Hc Hs]%orb_false_elim. rewrite Hc, (IH Hs). done.
Qed.

End js_facts.

(** ** Directory navigation *)

Section navigation.
Context (E : Collaborators).

Lemma filteredFiles_no_search s :
  searchTerm s = EmptyString → filteredFiles s = Dir.files (dirContents s).
Proof.
  intros Hs. unfold filteredFiles, matchesSearch. rewrite Hs. simpl.
  induction (Dir.files (dirContents s)) as [|file l IH]; [done|].
  rewrite filter_cons_True by done. by rewrite IH.
Qed.

(** Filtering twice is filtering once: a directory object that the index
    hands out again after [loadDirContents] has written to it gives the
    same file list. *)
Lemma dat64_filter_idemp (l : list string) :
  filter (λ file, Is_true (Js.endsWith file ".dat64"))
    (filter (λ file, Is_true (Js.endsWith file ".dat64")) l)
  = filter (λ file, Is_true (Js.endsWith file ".dat64")) l.
Proof.
  induction l as [|file l IH]; [done|].
  destruct (Js.endsWith file ".dat64") eqn:Hf.
  - rewrite !filter_cons_True by (simpl; rewrite Hf; exact I).
    by rewrite IH.
  - rewrite filter_cons_False by (simpl; rewrite Hf; exact id). done.
Qed.

(** C9: after [loadDirContents] the file list holds exactly the files of the
    index's answer whose path ends with [.dat64], in the index's order; the
    subdirectories are those of the index's answer, and the current path is
    the directory asked for.  With no search term typed in, the list on
    screen ([filteredFiles]) is that file list. *)
Theorem loadDirContents_keeps_dat64 (dirPath : string) (s : State) :
  (∀ file,
     file ∈ Dir.files (dirContents (loadDirContents E dirPath s)) ↔
     file ∈ Dir.files (default (Dir.mk [] []) (index_getDirContent E dirPath))
     ∧ ∃ stem, file = stem +:+ ".dat64")
  ∧ Dir.files (dirContents (loadDirContents E dirPath s)) =
    filter (λ file, Is_true (Js.endsWith file ".dat64"))
      (Dir.files (default (Dir.mk [] []) (index_getDirContent E dirPath)))
  ∧ Dir.dirs (dirContents (loadDirContents E dirPath s)) =
    Dir.dirs (default (Dir.mk [] []) (index_getDirContent E dirPath))
  ∧ currentPath (loadDirContents E dirPath s) = dirPath
  ∧ (searchTerm s = EmptyString →
     filteredFiles (loadDirContents E dirPath s)
     = Dir.files (dirContents (loadDirContents E dirPath s))).
Proof.
  split_and!.
  - intros file. unfold loadDirContents. simpl.
    rewrite list_elem_of_filter, Is_true_true, endsWith_spec. tauto.
  - done.
  - done.
  - done.
  - intros Hsearch. by apply filteredFiles_no_search.
Qed.

Lemma goUp_unfold s :
  goUp E s =
  if Js.truthy (currentPath s)
  then loadDirContents E
         (Js.join "/" (Js.pop (Js.split "/"%char (currentPath s)))) s
  else s.
Proof. done. Qed.

(** C10: from a top-level directory (a current path that is not empty and
    holds no [/]) [goUp] loads the root directory, the empty path; at the
    root (the empty current path) [goUp] changes nothing. *)
Theorem goUp_top_level_and_root (s : State) :
  (currentPath s ≠ EmptyString → Js.has_char "/" (currentPath s) = false →
   goUp E s = loadDirContents E EmptyString s
   ∧ currentPath (goUp E s) = EmptyString
   ∧ Dir.files (dirContents (goUp E s)) =
     filter (λ file, Is_true (Js.endsWith file ".dat64"))
       (Dir.files (default (Dir.mk [] []) (index_getDirContent E EmptyString))))
  ∧ (currentPath s = EmptyString → goUp E s = s).
Proof.
  split.
  - intros Hne Hslash. rewrite goUp_unfold.
    unfold Js.truthy. rewrite bool_decide_eq_true_2 by done.
    rewrite (split_no_sep _ _ Hslash). done.
  - intros Hroot. rewrite goUp_unfold, Hroot. done.
Qed.

End navigation.

Lemma loadDirContents_keeps_dat64_witness :
  filteredFiles (loadDirContents World.collaborators "data"
                   (mounted World.collaborators))
  = ["data/stats.dat64"; "data/mods.dat64"; "data/drift.dat64";
     "data/tags.dat64"]
  ∧ Dir.dirs (dirContents (loadDirContents World.collaborators "data"
                             (mounted World.collaborators)))
    = ["data/french"].
Proof.
  destruct (loadDirContents_keeps_dat64 World.collaborators "data"
              (mounted World.collaborators))
    as (_ & Hfiles & Hdirs & _ & Hshown).
  rewrite Hshown by reflexivity.
  rewrite Hfiles, Hdirs. split; vm_compute; reflexivity.
Defined.

Lemma goUp_top_level_and_root_witness :
  goUp World.collaborators
    (loadDirContents World.collaborators "data" (mounted World.collaborators))
  = loadDirContents World.collaborators EmptyString
      (loadDirContents World.collaborators "data"
         (mounted World.collaborators))
  ∧ goUp World.collaborators (mounted World.collaborators)
    = mounted World.collaborators.
Proof.
  split.
  - apply (goUp_top_level_and_root World.collaborators
             (loadDirContents World.collaborators "data"
                (mounted World.collaborators)));
      [vm_compute; discriminate | vm_compute; reflexivity].
  - apply (goUp_top_level_and_root World.collaborators
             (mounted World.collaborators)).
    vm_compute; reflexivity.
Defined.

(** ** The schema name *)

Lemma string_app_cons (a : ascii) (p q : string) :
  String a p +:+ q = String a (p +:+ q).
Proof. done. Qed.

Lemma string_app_nil (q : string) : EmptyString +:+ q = q.
Proof. done. Qed.

Lemma string_length_app (p q : string) :
  String.length (p +:+ q) = String.length p + String.length q.
Proof. induction p as [|a p IH]; simpl; [done|]. by rewrite IH. Qed.

Lemma substring_0_app (p q : string) :
  String.substring 0 (String.length p) (p +:+ q) = p.
Proof.
  induction p as [|a p IH]; simpl; [by destruct q|]. by rewrite IH.
Qed.

Lemma stripEnd_app (stem suffix : string) :
  stripEnd suffix (stem +:+ suffix) = stem.
Proof.
  unfold stripEnd. rewrite endsWith_app, string_length_app.
  replace (String.length stem + String.length suffix - String.length suffix)
    with (String.length stem) by lia.
  apply substring_0_app.
Qed.

(** [.dat64] has one dot, at its front: an occurrence of it in
    [stem +:+ ".dat64"] lies within [stem] or is the one at the end. *)
Lemma dat64_no_overlap (stem : string) :
  is_Some (Js.strip_prefix ".dat64" (stem +:+ ".dat64")) →
  stem = EmptyString ∨ is_Some (Js.strip_prefix ".dat64" stem).
Proof.
  intros [rest H].
  destruct stem as [|c1 [|c2 [|c3 [|c4 [|c5 [|c6 stem]]]]]]; [by left|..];
    right; rewrite !string_app_cons, ?string_app_nil in H;
    cbn [Js.strip_prefix] in H |- *;
    repeat match type of H with
           | context [Ascii.eqb ?a ?b] =>
               destruct (Ascii.eqb_spec a b) as [?|?];
               [try discriminate; subst | discriminate H]
           end;
    try discriminate H.
  simpl. eauto.
Qed.

Lemma includes_cons (c : ascii) (s pat : string) :
  Js.includes (String c s) pat =
  match Js.strip_prefix pat (String c s) with
  | Some _ => true
  | None => Js.includes s pat
  end.
Proof. done. Qed.

Lemma replace_empty_dat64_end (stem : string) :
  Js.includes stem ".dat64" = false →
  Js.replace_empty ".dat64" (stem +:+ ".dat64") = stem.
Proof.
  induction stem as [|c stem IH]; [done|].
  rewrite includes_cons.
  destruct (Js.strip_prefix ".dat64" (String c stem)) eqn:Hin; [done|].
  intros Hinc. rewrite string_app_cons, replace_empty_unfold.
  destruct (Js.strip_prefix ".dat64" (String c (stem +:+ ".dat64"))) eqn:Hs.
  - destruct (dat64_no_overlap (String c stem)) as [?|[? Hin']];
      [by rewrite string_app_cons, Hs | done | congruence].
  - f_equal. by apply IH.
Qed.

(** Where the code and the specification agree: a path that starts with
    [data/], ends with [.dat64] and has no other [.dat64] in it. *)
Lemma schemaName_anchored (stem : string) :
  Js.includes stem ".dat64" = false →
  schemaName ("data/" +:+ stem +:+ ".dat64") = stem
  ∧ schemaName_spec ("data/" +:+ stem +:+ ".dat64") = stem.
Proof.
  intros Hinc. unfold schemaName, schemaName_spec, stripFront.
  rewrite replace_empty_prefix, strip_prefix_app. simpl.
  split; [by apply replace_empty_dat64_end | apply stripEnd_app].
Qed.

(** C5: the schema name is meant to be the path without the directory
    prefix [data/] at its front and without the extension [.dat64] at its
    end.  The code removes the first [data/] wherever it stands: for
    [metadata/stats.dat64] it yields [metastats], not [metadata/stats].
    The same holds for [.dat64]. *)
Theorem schemaName_removes_inner_occurrence :
  schemaName "metadata/stats.dat64" = "metastats"
  ∧ schemaName_spec "metadata/stats.dat64" = "metadata/stats"
  ∧ schemaName "data/a.dat64b.dat64" = "ab.dat64"
  ∧ schemaName_spec "data/a.dat64b.dat64" = "a.dat64b"
  ∧ schemaName "data/stats.dat64" = schemaName_spec "data/stats.dat64".
Proof. repeat split; vm_compute; reflexivity. Qed.

(** ** Placeholder names *)

Lemma assignNames_lookup (hs : list Header.t) (k : nat) (h : Header.t) :
  hs !! k = Some h →
  assignNames hs !! k =
  Some (Header.with_name
          (match Header.named h with
           | Some n => n
           | None => placeholder k
           end) h).
Proof.
  intros Hk. unfold assignNames. by rewrite list_lookup_imap, Hk.
Qed.

Lemma length_assignNames (hs : list Header.t) :
  length (assignNames hs) = length hs.
Proof. apply length_imap. Qed.

Lemma elem_of_unnamedPositions (hs : list Header.t) (k : nat) :
  k ∈ unnamedPositions hs ↔ ∃ h, hs !! k = Some h ∧ Header.named h = None.
Proof.
  unfold unnamedPositions, entries. rewrite list_elem_of_bind. split.
  - intros ([i h] & Hk & (i' & h' & [= -> ->] & Hi)%elem_of_lookup_imap).
    destruct (Header.named h') eqn:Hn; [by apply elem_of_nil in Hk|].
    apply list_elem_of_singleton in Hk as ->. eauto.
  - intros (h & Hk & Hn). exists (k, h). rewrite Hn. split; [by left|].
    apply elem_of_lookup_imap. eauto.
Qed.

Lemma placeholder_truthy (k : nat) : Js.truthy (placeholder k) = true.
Proof. done. Qed.

Lemma named_with_name (n : string) (h : Header.t) :
  Js.truthy n = true → Header.named (Header.with_name n h) = Some n.
Proof. intros Hn. unfold Header.named. simpl. by rewrite Hn. Qed.

Lemma named_truthy (h : Header.t) (n : string) :
  Header.named h = Some n → Js.truthy n = true ∧ Header.name h = Some n.
Proof.
  unfold Header.named. destruct (Header.name h) as [m|]; [|done].
  destruct (Js.truthy m) eqn:Hm; [|done]. by intros [= <-].
Qed.

(** After the naming pass every header has a name that counts as one. *)
Lemma assigned_name (h : Header.t) (k : nat) :
  Header.named
    (Header.with_name
       (match Header.named h with
        | Some n => n
        | None => placeholder k
        end) h)
  = Some (match Header.named h with
          | Some n => n
          | None => placeholder k
          end).
Proof.
  apply named_with_name. destruct (Header.named h) eqn:Hn.
  - by apply named_truthy in Hn as [? _].
  - apply placeholder_truthy.
Qed.

Lemma assignNames_idemp (hs : list Header.t) :
  assignNames (assignNames hs) = assignNames hs.
Proof.
  apply list_eq. intros k. destruct (hs !! k) as [h|] eqn:Hk.
  - rewrite (assignNames_lookup _ _ _ (assignNames_lookup _ _ _ Hk)).
    rewrite (assignNames_lookup _ _ _ Hk), assigned_name. done.
  - apply lookup_ge_None in Hk.
    rewrite !(proj2 (lookup_ge_None _ _)); rewrite ?length_assignNames; done.
Qed.

Lemma unnamedPositions_from (n : nat) (hs : list Header.t) :
  StronglySorted lt
    (imap (λ k, pair (n + k)) hs ≫= λ '(index, header),
       match Header.named header with
       | Some _ => []
       | None => [index]
       end)
  ∧ Forall (λ k, n ≤ k)
      (imap (λ k, pair (n + k)) hs ≫= λ '(index, header),
         match Header.named header with
         | Some _ => []
         | None => [index]
         end).
Proof.
  revert n. induction hs as [|h hs IH]; intros n.
  { split; constructor. }
  rewrite imap_cons, bind_cons.
  rewrite (imap_ext _ (λ k, pair (S n + k)) hs)
    by (intros; simpl; f_equal; lia).
  destruct (IH (S n)) as [Hsorted Hge].
  destruct (Header.named h); simpl.
  - split; [done|]. eapply Forall_impl; [exact Hge|]. simpl. lia.
  - rewrite Nat.add_0_r. split.
    + constructor; [done|]. eapply Forall_impl; [exact Hge|]. simpl. lia.
    + constructor; [done|]. eapply Forall_impl; [exact Hge|]. simpl. lia.
Qed.

Lemma unnamedPositions_sorted (hs : list Header.t) :
  StronglySorted lt (unnamedPositions hs).
Proof. apply (unnamedPositions_from 0 hs). Qed.

(** C2 (as amended): two headers with no name, at the positions [i] and
    [j] of the header list, the first before the second, are named
    [Unnamed i] and [Unnamed j]: the number is the position among all
    headers, so the names are [Unnamed 0] and [Unnamed 1] when these two
    come first.  A header with a name keeps it, and naming the named list
    again changes nothing. *)
Theorem placeholder_follows_position (hs : list Header.t) (i j : nat) :
  unnamedPositions hs = [i; j] →
  i < j
  ∧ (Header.name <$> assignNames hs !! i = Some (Some (placeholder i))
     ∧ Header.name <$> assignNames hs !! j = Some (Some (placeholder j)))
  ∧ (i = 0 → j = 1 →
     Header.name <$> assignNames hs !! i = Some (Some "Unnamed 0")
     ∧ Header.name <$> assignNames hs !! j = Some (Some "Unnamed 1"))
  ∧ (∀ k h n, hs !! k = Some h → Header.named h = Some n →
              Header.name <$> assignNames hs !! k = Some (Some n))
  ∧ assignNames (assignNames hs) = assignNames hs.
Proof.
  intros Hpos.
  assert (∀ k, k ∈ [i; j] →
               Header.name <$> assignNames hs !! k
               = Some (Some (placeholder k))) as Hname.
  { intros k Hk. rewrite <-Hpos in Hk.
    apply elem_of_unnamedPositions in Hk as (h & Hk & Hn).
    by rewrite (assignNames_lookup _ _ _ Hk), Hn. }
  split_and!.
  - pose proof (unnamedPositions_sorted hs) as Hsorted.
    rewrite Hpos in Hsorted. apply StronglySorted_inv in Hsorted as [_ Hij].
    by apply Forall_inv in Hij.
  - apply Hname. set_solver.
  - apply Hname. set_solver.
  - intros -> ->. split; [apply (Hname 0)|apply (Hname 1)]; set_solver.
  - intros k h n Hk Hn. by rewrite (assignNames_lookup _ _ _ Hk), Hn.
  - apply assignNames_idemp.
Qed.

Lemma placeholder_follows_position_witness :
  Header.name <$> assignNames [World.int4 None 0; World.int4 None 4] !! 0
  = Some (Some "Unnamed 0")
  ∧ Header.name <$> assignNames [World.int4 None 0; World.int4 None 4] !! 1
    = Some (Some "Unnamed 1").
Proof.
  apply (placeholder_follows_position
           [World.int4 None 0; World.int4 None 4] 0 1); reflexivity.
Defined.

(** C2 (as stated) fails: behind one named header the two placeholders
    are [Unnamed 1] and [Unnamed 2]. *)
Lemma placeholders_are_0_and_1_refuted :
  Header.name <$>
    assignNames [World.int4 (Some "A") 0; World.int4 None 4;
                 World.int4 None 8]
  = [Some "A"; Some "Unnamed 1"; Some "Unnamed 2"]
  ∧ ¬ placeholders_are_0_and_1.
Proof.
  split; [reflexivity|]. intros Hclaim.
  destruct (Hclaim [World.int4 (Some "A") 0; World.int4 None 4;
                    World.int4 None 8] 1 2 eq_refl) as [H _].
  vm_compute in H. discriminate H.
Qed.

(** ** Rows *)

Section rows.
Context (E : Collaborators).
Implicit Types (d : DatFile.t) (hs : list Header.t) (row : Row).

Lemma extractRow_from columns d i hs n row :
  (∀ k h, hs !! k = Some h → columns !! (n + k) = Some (readColumn E h d)) →
  foldl (λ row '(index, header),
           let value := cell columns index i in
           match Header.named header with
           | Some key => assign row key value
           | None => row
           end) row (imap (λ k, pair (n + k)) hs)
  = foldl (put E d i) row hs.
Proof.
  revert n row. induction hs as [|h hs IH]; intros n row Hcols; [done|].
  rewrite imap_cons. cbn [foldl].
  rewrite <-(IH (S n)).
  - unfold put, cellOf, cell. rewrite (Hcols 0 h eq_refl).
    f_equal. apply imap_ext. intros k ? _. simpl. f_equal. lia.
  - intros k h' Hk. rewrite <-(Hcols (S k) h' Hk). f_equal. lia.
Qed.

(** The row of index [i]: the headers' assignments, one after the other. *)
Lemma extractRow_foldl d i hs :
  extractRow ((λ header, readColumn E header d) <$> hs) hs i
  = foldl (put E d i) ∅ hs.
Proof.
  unfold extractRow, entries.
  apply (extractRow_from _ d i hs 0 ∅).
  intros k h Hk. cbn [Nat.add]. by rewrite list_lookup_fmap, Hk.
Qed.

Lemma pairs_cons d i h hs :
  pairs E d i (h :: hs) =
  match Header.named h with
  | Some key => if decide (key = "__proto__") then pairs E d i hs
                else (key, cellOf E d i h) :: pairs E d i hs
  | None => pairs E d i hs
  end.
Proof.
  unfold pairs. simpl. destruct (Header.named h) as [key|]; [|done].
  by destruct (decide (key = "__proto__")).
Qed.

Lemma foldl_put_pairs d i hs row :
  foldl (put E d i) row hs
  = foldl (λ m kv, <[kv.1 := kv.2]> m) row (pairs E d i hs).
Proof.
  revert row. induction hs as [|h hs IH]; intros row; [done|].
  cbn [foldl]. rewrite IH, pairs_cons. unfold put, assign.
  destruct (Header.named h) as [key|]; [|done].
  by destruct (decide (key = "__proto__")).
Qed.

Lemma foldl_insert_list_to_map (l : list (string * JsValue)) :
  foldl (λ (m : Row) kv, <[kv.1 := kv.2]> m) ∅ l = list_to_map (reverse l).
Proof.
  induction l as [|kv l IH] using rev_ind; [done|].
  rewrite foldl_snoc, reverse_snoc, IH. by destruct kv.
Qed.

(** The row of index [i] as a map: of the assignments to one key the last
    one stands. *)
Lemma extractRow_list_to_map d i hs :
  extractRow ((λ header, readColumn E header d) <$> hs) hs i
  = list_to_map (reverse (pairs E d i hs)).
Proof.
  by rewrite extractRow_foldl, foldl_put_pairs, foldl_insert_list_to_map.
Qed.

Lemma keys_cons h hs :
  keys (h :: hs) =
  match Header.named h with
  | Some key => if decide (key = "__proto__") then keys hs else key :: keys hs
  | None => keys hs
  end.
Proof.
  unfold keys. simpl. destruct (Header.named h) as [key|]; [|done].
  destruct (decide (key = "__proto__")).
  - by rewrite filter_cons_False by naive_solver.
  - by rewrite filter_cons_True by done.
Qed.

Lemma pairs_keys d i hs : (pairs E d i hs).*1 = keys hs.
Proof.
  induction hs as [|h hs IH]; [done|]. rewrite pairs_cons, keys_cons.
  destruct (Header.named h) as [key|]; [|done].
  destruct (decide (key = "__proto__")); [done|]. by rewrite fmap_cons, IH.
Qed.

Lemma size_list_to_set_remove_dups (l : list string) :
  size (list_to_set l : gset string) = length (remove_dups l).
Proof.
  rewrite <-(size_list_to_set (C := gset string) (remove_dups l))
    by apply NoDup_remove_dups.
  f_equal. apply set_eq. intros x.
  by rewrite !elem_of_list_to_set, elem_of_remove_dups.
Qed.

(** A row has one entry for each of the different keys. *)
Lemma size_extractRow d i hs :
  size (extractRow ((λ header, readColumn E header d) <$> hs) hs i)
  = length (remove_dups (keys hs)).
Proof.
  rewrite extractRow_list_to_map, <-size_dom, dom_list_to_map_L.
  rewrite fmap_reverse, pairs_keys.
  rewrite (list_to_set_perm_L _ _ (reverse_Permutation (keys hs))).
  apply size_list_to_set_remove_dups.
Qed.

Lemma extractRows_rows startTime endTime d hs :
  (extractRows E startTime endTime d hs).1
  = (λ i, extractRow ((λ header, readColumn E header d) <$> hs) hs i)
      <$> seq 0 (DatFile.rowCount d).
Proof. done. Qed.

Lemma extractRows_lookup startTime endTime d hs i row :
  (extractRows E startTime endTime d hs).1 !! i = Some row →
  i < DatFile.rowCount d
  ∧ row = extractRow ((λ header, readColumn E header d) <$> hs) hs i.
Proof.
  rewrite extractRows_rows, list_lookup_fmap.
  destruct (seq 0 (DatFile.rowCount d) !! i) as [k|] eqn:Hk; [|done].
  apply lookup_seq in Hk as [-> ?]. by intros [= <-].
Qed.


Lemma foldl_put_other d i hs row key :
  Forall (λ h, Header.named h ≠ Some key) hs →
  foldl (put E d i) row hs !! key = row !! key.
Proof.
  revert row. induction hs as [|h hs IH]; intros row Hhs; [done|].
  apply Forall_cons in Hhs as [Hh Hhs]. cbn [foldl]. rewrite (IH _ Hhs).
  unfold put, assign. destruct (Header.named h) as [key'|]; [|done].
  case_decide; [done|]. apply lookup_insert_ne. congruence.
Qed.

(** Of the headers that share a key, the last one gives the entry. *)
Lemma extractRow_last_wins d i hs1 h hs2 key :
  Header.named h = Some key → key ≠ "__proto__" →
  Forall (λ h', Header.named h' ≠ Some key) hs2 →
  extractRow ((λ header, readColumn E header d) <$> hs1 ++ h :: hs2)
    (hs1 ++ h :: hs2) i !! key
  = Some (cellOf E d i h).
Proof.
  intros Hh Hkey Hhs2. rewrite extractRow_foldl, foldl_app. cbn [foldl].
  rewrite (foldl_put_other _ _ _ _ _ Hhs2).
  unfold put at 1, assign. rewrite Hh, decide_False by done.
  apply lookup_insert_eq.
Qed.

End rows.

(** ** List facts *)

Section list_facts.
Context {A : Type} `{EqDecision A}.

Lemma remove_dups_NoDup_id (l : list A) : NoDup l → remove_dups l = l.
Proof.
  induction 1 as [|x l Hx _ IH]; [done|]. simpl.
  case_decide; [done|]. by rewrite IH.
Qed.



Lemma filter_all (P : A → Prop) `{∀ x, Decision (P x)} (l : list A) :
  Forall P l → filter P l = l.
Proof.
  induction 1 as [|x l Hx _ IH]; [done|].
  by rewrite filter_cons_True, IH by done.
Qed.

Lemma omap_cons {B} (f : A → option B) (x : A) (l : list A) :
  omap f (x :: l) =
  match f x with
  | Some y => y :: omap f l
  | None => omap f l
  end.
Proof. done. Qed.

Lemma length_omap_all {B} (f : A → option B) (l : list A) :
  Forall (λ x, is_Some (f x)) l → length (omap f l) = length l.
Proof.
  induction 1 as [|x l [y Hy] _ IH]; [done|].
  rewrite omap_cons, Hy. simpl. by rewrite IH.
Qed.


End list_facts.

(** ** Decoding a file *)

Section decoding.
Context (E : Collaborators).
Implicit Types (d : DatFile.t) (hs : list Header.t) (row : Row) (s : State).

Lemma loadFileContent_found startTime endTime filePath s d headersResult :
  readDatFile E filePath (index_loadFileContent E filePath) = Ok d →
  fromSerializedHeaders E (db_findByName E (schemaName filePath))
    (analyzeDatFile E d) d = Some headersResult →
  loadFileContent E startTime endTime filePath s =
  (Resolved,
   set_loading false
     (set_rows
        (extractRows E startTime endTime d
           (assignNames (HeadersResult.headers headersResult))).1
        (console_write (ConsoleLogExtractTime startTime endTime)
           (set_headers (assignNames (HeadersResult.headers headersResult))
              (set_datFile (Some d)
                 (set_fileContent (Some (index_loadFileContent E filePath))
                    (set_loading true s))))))).
Proof. intros Hd Hh. unfold loadFileContent. by rewrite Hd, Hh. Qed.

Lemma loadFileContent_mismatch startTime endTime filePath s d :
  readDatFile E filePath (index_loadFileContent E filePath) = Ok d →
  fromSerializedHeaders E (db_findByName E (schemaName filePath))
    (analyzeDatFile E d) d = None →
  loadFileContent E startTime endTime filePath s =
  (Resolved,
   console_write
     (ConsoleWarn ("Invalid headers for file: " +:+ schemaName filePath))
     (set_datFile (Some d)
        (set_fileContent (Some (index_loadFileContent E filePath))
           (set_loading true s)))).
Proof. intros Hd Hh. unfold loadFileContent. by rewrite Hd, Hh. Qed.

Lemma loadFileContent_throws startTime endTime filePath s message :
  readDatFile E filePath (index_loadFileContent E filePath) = Throw message →
  loadFileContent E startTime endTime filePath s =
  (Rejected message,
   set_fileContent (Some (index_loadFileContent E filePath))
     (set_loading true s)).
Proof. intros Hd. unfold loadFileContent. by rewrite Hd. Qed.

Lemma assignNames_all_named hs :
  Forall (λ h, is_Some (Header.named h)) (assignNames hs).
Proof.
  apply Forall_lookup. intros k h'. unfold assignNames.
  rewrite list_lookup_imap. destruct (hs !! k) as [h|]; [|done].
  intros [= <-]. rewrite assigned_name. eauto.
Qed.

Lemma with_name_same (h : Header.t) (n : string) :
  Header.name h = Some n → Header.with_name n h = h.
Proof. destruct h as [? ? ? ?]. simpl. by intros ->. Qed.

(** Headers that all have a name come out of the naming pass as they are. *)
Lemma assignNames_named hs :
  Forall (λ h, is_Some (Header.named h)) hs → assignNames hs = hs.
Proof.
  intros Hall. apply list_eq. intros k.
  destruct (hs !! k) as [h|] eqn:Hk.
  - rewrite (assignNames_lookup _ _ _ Hk).
    destruct (Forall_lookup_1 _ _ _ _ Hall Hk) as [n Hn]. rewrite Hn.
    f_equal. apply with_name_same. by apply named_truthy in Hn as [_ ?].
  - apply lookup_ge_None in Hk. apply lookup_ge_None.
    by rewrite length_assignNames.
Qed.

Lemma keys_no_proto hs :
  "__proto__" ∉ omap Header.named hs → keys hs = omap Header.named hs.
Proof.
  intros Hp. unfold keys. apply filter_all, Forall_forall.
  intros key Hkey ->. done.
Qed.




Lemma extractRow_perm d i hs hs' :
  hs ≡ₚ hs' → NoDup (omap Header.named hs) →
  extractRow ((λ header, readColumn E header d) <$> hs) hs i
  = extractRow ((λ header, readColumn E header d) <$> hs') hs' i.
Proof.
  intros Hperm Hnodup. rewrite !extractRow_list_to_map.
  apply list_to_map_proper.
  - rewrite fmap_reverse, pairs_keys, reverse_Permutation.
    unfold keys. by apply NoDup_filter.
  - rewrite !reverse_Permutation. unfold pairs. by rewrite Hperm.
Qed.

End decoding.

Section decoding_theorems.
Context (E : Collaborators).
Implicit Types (d : DatFile.t) (hs : list Header.t) (row : Row) (s : State).



(** C4 (as amended): when the file parses and its headers are not accepted,
    [loadFileContent] resolves as it does on success, with nothing for the
    caller to tell the two apart, and writes a warning with the schema name
    to the console.  It calls [extractRows] not at all: [rows] and [headers]
    keep what they held before, the table of the file decoded earlier if
    there was one.  [loading] stays set, so the template shows the loading
    indicator and no table. *)
Theorem mismatch_keeps_rows_behind_spinner startTime endTime filePath s d :
  readDatFile E filePath (index_loadFileContent E filePath) = Ok d →
  fromSerializedHeaders E (db_findByName E (schemaName filePath))
    (analyzeDatFile E d) d = None →
  (loadFileContent E startTime endTime filePath s).1 = Resolved
  ∧ rows (loadFileContent E startTime endTime filePath s).2 = rows s
  ∧ headers (loadFileContent E startTime endTime filePath s).2 = headers s
  ∧ loading (loadFileContent E startTime endTime filePath s).2 = true
  ∧ view (loadFileContent E startTime endTime filePath s).2 = LoadingSpinner
  ∧ console (loadFileContent E startTime endTime filePath s).2
    = console s
      ++ [ConsoleWarn ("Invalid headers for file: " +:+ schemaName filePath)].
Proof.
  intros Hd Hh. by rewrite (loadFileContent_mismatch E _ _ _ _ _ Hd Hh).
Qed.

(** C6: decoding is deterministic.  The rows that [extractRows] returns
    for a table and its headers do not depend on the clock readings it
    takes, and two calls of [loadFileContent] for one path, from whatever
    states and at whatever times, are settled alike and, when they end with
    the table shown, leave the same rows and headers. *)
Theorem decoding_is_deterministic startTime endTime startTime' endTime' d hs
    filePath s s' :
  (extractRows E startTime endTime d hs).1
  = (extractRows E startTime' endTime' d hs).1
  ∧ (loadFileContent E startTime endTime filePath s).1
    = (loadFileContent E startTime' endTime' filePath s').1
  ∧ (loading (loadFileContent E startTime endTime filePath s).2 = false →
     rows (loadFileContent E startTime endTime filePath s).2
     = rows (loadFileContent E startTime' endTime' filePath s').2
     ∧ headers (loadFileContent E startTime endTime filePath s).2
       = headers (loadFileContent E startTime' endTime' filePath s').2).
Proof.
  split; [done|]. unfold loadFileContent.
  destruct (readDatFile E filePath (index_loadFileContent E filePath))
    as [d'|message]; [|done].
  destruct (fromSerializedHeaders E (db_findByName E (schemaName filePath))
              (analyzeDatFile E d') d') as [headersResult|]; done.
Qed.

(** C7 (as amended): for headers whose names differ from one another, any
    order of the headers gives the same rows, as maps from name to value.
    This covers the naming pass when every header has a declared name; a
    placeholder name is made from the position, so it does not survive a
    reordering. *)
Theorem distinct_names_any_order startTime endTime d hs hs' :
  hs ≡ₚ hs' → NoDup (omap Header.named hs) →
  (extractRows E startTime endTime d hs).1
  = (extractRows E startTime endTime d hs').1
  ∧ (Forall (λ h, is_Some (Header.named h)) hs →
     (extractRows E startTime endTime d (assignNames hs)).1
     = (extractRows E startTime endTime d (assignNames hs')).1).
Proof.
  intros Hperm Hnodup.
  assert ((extractRows E startTime endTime d hs).1
          = (extractRows E startTime endTime d hs').1) as Hrows.
  { rewrite !extractRows_rows. apply list_fmap_ext. intros _ i _.
    by apply extractRow_perm. }
  split; [done|]. intros Hnamed.
  rewrite (assignNames_named hs Hnamed).
  rewrite (assignNames_named hs'); [done|]. by rewrite <-Hperm.
Qed.

End decoding_theorems.

(** ** The theorems at work on the files of [World] *)


Lemma World_parses :
  readDatFile W "data/stats.dat64" (index_loadFileContent W "data/stats.dat64")
  = Ok World.statsTable
  ∧ readDatFile W "data/tags.dat64" (index_loadFileContent W "data/tags.dat64")
    = Ok World.statsTable
  ∧ readDatFile W "data/drift.dat64"
      (index_loadFileContent W "data/drift.dat64") = Ok World.statsTable
  ∧ readDatFile W "data/mods.dat64" (index_loadFileContent W "data/mods.dat64")
    = Ok World.modsTable.
Proof. repeat split; vm_compute; reflexivity. Qed.

(** The scenario of the specification: three rows of stride 8, the
    headers [A] and [B] of four bytes each. *)
Lemma World_stats_rows :
  rows (loadFileContent W 0 0 "data/stats.dat64" (mounted W)).2
  = [ {[ "A" := JNum 1; "B" := JNum 10 ]};
      {[ "A" := JNum 2; "B" := JNum 20 ]};
      {[ "A" := JNum 3; "B" := JNum 30 ]} ].
Proof. vm_compute. reflexivity. Qed.





Lemma mismatch_keeps_rows_behind_spinner_witness :
  view (loadFileContent W 0 0 "data/drift.dat64"
          (loadFileContent W 0 0 "data/stats.dat64" (mounted W)).2).2
  = LoadingSpinner
  ∧ rows (loadFileContent W 0 0 "data/drift.dat64"
            (loadFileContent W 0 0 "data/stats.dat64" (mounted W)).2).2
    = rows (loadFileContent W 0 0 "data/stats.dat64" (mounted W)).2.
Proof.
  destruct (mismatch_keeps_rows_behind_spinner W 0 0 "data/drift.dat64"
              (loadFileContent W 0 0 "data/stats.dat64" (mounted W)).2
              World.statsTable)
    as (_ & Hrows & _ & _ & Hview & _);
    [vm_compute; reflexivity | vm_compute; reflexivity |].
  split; [exact Hview | exact Hrows].
Defined.

(** C4 (as stated) fails: [data/drift.dat64] has a header at offset 8 of a
    stride of 8.  Loading it after [data/stats.dat64] resolves, and [rows]
    still holds the three rows of [data/stats.dat64]. *)
Lemma mismatch_is_reported_refuted :
  ((loadFileContent W 0 0 "data/drift.dat64"
      (loadFileContent W 0 0 "data/stats.dat64" (mounted W)).2).1 = Resolved
   ∧ length (rows (loadFileContent W 0 0 "data/drift.dat64"
                     (loadFileContent W 0 0 "data/stats.dat64"
                        (mounted W)).2).2) = 3)
  ∧ ¬ mismatch_is_reported W.
Proof.
  split; [split; vm_compute; reflexivity|]. intros Hclaim.
  destruct (Hclaim 0%Z 0%Z "data/drift.dat64"
              (loadFileContent W 0 0 "data/stats.dat64" (mounted W)).2
              World.statsTable)
    as [[message Hrejected] _]; [vm_compute; reflexivity..|].
  vm_compute in Hrejected. discriminate Hrejected.
Qed.

Lemma decoding_is_deterministic_witness :
  rows (loadFileContent W 0 5 "data/stats.dat64" (mounted W)).2
  = rows (loadFileContent W 7 9 "data/stats.dat64"
            (loadFileContent W 0 0 "data/mods.dat64" (mounted W)).2).2.
Proof.
  apply (decoding_is_deterministic W 0 5 7 9 World.statsTable [] "data/stats.dat64"
           (mounted W)
           (loadFileContent W 0 0 "data/mods.dat64" (mounted W)).2).
  vm_compute. reflexivity.
Defined.

Lemma distinct_names_any_order_witness :
  (extractRows W 0 0 World.statsTable [World.int4 (Some "A") 0; World.int4 (Some "B") 4]).1
  = (extractRows W 0 0 World.statsTable [World.int4 (Some "B") 4; World.int4 (Some "A") 0]).1.
Proof.
  destruct (distinct_names_any_order W 0 0 World.statsTable
              [World.int4 (Some "A") 0; World.int4 (Some "B") 4]
              [World.int4 (Some "B") 4; World.int4 (Some "A") 0])
    as [Hrows _].
  - apply perm_swap.
  - apply (bool_decide_unpack _). vm_compute. exact I.
  - exact Hrows.
Defined.

(** C7 (as stated) fails: two headers with no name are named after their
    positions, so swapping them swaps the values under [Unnamed 0] and
    [Unnamed 1]. *)
Lemma header_order_is_irrelevant_refuted :
  ((extractRows W 0 0 World.statsTable (assignNames [World.int4 None 0; World.int4 None 4])).1
     !! 0 ≫= (.!! "Unnamed 0") = Some (JNum 1)
   ∧ (extractRows W 0 0 World.statsTable (assignNames [World.int4 None 4; World.int4 None 0])).1
       !! 0 ≫= (.!! "Unnamed 0") = Some (JNum 10))
  ∧ ¬ header_order_is_irrelevant W.
Proof.
  split; [split; vm_compute; reflexivity|]. intros Hclaim.
  specialize (Hclaim 0%Z 0%Z World.statsTable [World.int4 None 0; World.int4 None 4]
                [World.int4 None 4; World.int4 None 0] (perm_swap _ _ _)).
  apply (f_equal (λ rs : list Row, rs !! 0 ≫= (.!! "Unnamed 0"))) in Hclaim.
  vm_compute in Hclaim. discriminate Hclaim.
Qed.


(** ** Overlapping requests *)

Section request_theorems.
Context (E : Collaborators).


Lemma run_cons (ev : Event) (evs : list Event) (sys : System E) :
  run E (ev :: evs) sys = run E evs (exec E ev sys).
Proof. done. Qed.

(** Resuming the youngest request. *)
Lemma exec_resume_last startTime endTime (s : State)
    (rs : list (Request E)) (r : Request E) :
  exec E (Resume (length rs) startTime endTime) (mkSystem E s (rs ++ [r]))
  = mkSystem E (resume E startTime endTime (filePath r) (pc r) s).2
      (rs ++ [mkRequest E (filePath r)
                (resume E startTime endTime (filePath r) (pc r) s).1]).
Proof.
  unfold exec. cbn [requests st]. rewrite list_lookup_middle by done.
  destruct (resume E startTime endTime (filePath r) (pc r) s) as [pc' s'].
  cbn [fst snd]. f_equal.
  rewrite insert_app_r_alt, Nat.sub_diag by done. done.
Qed.

(** A request that has settled stays as it is. *)
Lemma resume_settled startTime endTime filePath outcome (s : State) :
  resume E startTime endTime filePath (Settled outcome) s
  = (Settled outcome, s).
Proof. done. Qed.

(** A request resumed from its click to its end with no other request
    resumed in between does what [loadFileContent] does. *)
Lemma run_uninterrupted startTime endTime path (sys : System E) :
  run E (uninterrupted (length (requests sys)) startTime endTime path) sys
  = mkSystem E (loadFileContent E startTime endTime path (st sys)).2
      (requests sys
       ++ [mkRequest E path
             (Settled
                (loadFileContent E startTime endTime path (st sys)).1)]).
Proof.
  destruct sys as [s rs]. unfold uninterrupted. cbn [requests st replicate].
  rewrite run_cons. cbn [exec st requests].
  rewrite !run_cons, !exec_resume_last. cbn [filePath pc run foldl].
  unfold loadFileContent. cbn [resume fst snd].
  change (fileContent (set_fileContent ?v _)) with v. cbv beta iota.
  destruct (readDatFile E path (index_loadFileContent E path))
    as [d|message]; [|done].
  cbn [resume fst snd].
  change (datFile (set_datFile ?v _)) with v. cbv beta iota.
  destruct (fromSerializedHeaders E (db_findByName E (schemaName path))
              (analyzeDatFile E d) d) as [headersResult|]; done.
Qed.

(** C8 (as amended): there is no cancellation.  When no other request is
    resumed between a click and the end of the request it starts, the
    component ends in the state of an uninterrupted [loadFileContent] for
    the clicked file and the request has settled; its rows and headers
    are then those of the clicked file when its headers are accepted.
    Nothing is promised for requests that overlap: a request resumed after
    a newer one has started still assigns its headers and rows. *)
Theorem uninterrupted_request_delivers_its_file startTime endTime path
    (sys : System E) :
  st (run E (uninterrupted (length (requests sys)) startTime endTime path)
        sys)
  = (loadFileContent E startTime endTime path (st sys)).2
  ∧ requests
      (run E (uninterrupted (length (requests sys)) startTime endTime path)
         sys)
    = requests sys
      ++ [mkRequest E path
            (Settled (loadFileContent E startTime endTime path (st sys)).1)]
  ∧ (∀ d headersResult,
       readDatFile E path (index_loadFileContent E path) = Ok d →
       fromSerializedHeaders E (db_findByName E (schemaName path))
         (analyzeDatFile E d) d = Some headersResult →
       rows (st (run E (uninterrupted (length (requests sys)) startTime
                          endTime path) sys))
       = (extractRows E startTime endTime d
            (assignNames (HeadersResult.headers headersResult))).1
       ∧ headers (st (run E (uninterrupted (length (requests sys)) startTime
                               endTime path) sys))
         = assignNames (HeadersResult.headers headersResult)).
Proof.
  rewrite run_uninterrupted. cbn [st requests]. split_and!; try done.
  intros d headersResult Hd Hh.
  by rewrite (loadFileContent_found E _ _ _ _ _ _ Hd Hh).
Qed.

End request_theorems.

Lemma uninterrupted_request_delivers_its_file_witness :
  rows (st (run W (uninterrupted 0 0 0 "data/mods.dat64") (boot W)))
  = [ {[ "Unnamed 0" := JNum 7; "Unnamed 1" := JNum 8 ]};
      {[ "Unnamed 0" := JNum 9; "Unnamed 1" := JNum 5 ]} ].
Proof.
  destruct (uninterrupted_request_delivers_its_file W 0 0 "data/mods.dat64"
              (boot W)) as (_ & _ & Hfile).
  destruct (Hfile World.modsTable
              (HeadersResult.mk [World.int4 None 0; World.int4 None 4]))
    as [Hrows _]; [vm_compute; reflexivity..|].
  change (length (requests (boot W))) with 0 in Hrows.
  rewrite Hrows. vm_compute. reflexivity.
Defined.

(** C8 (as stated) fails: [data/stats.dat64] is clicked, then
    [data/mods.dat64], whose request runs to its end first.  The older
    request, resumed afterwards, puts the three rows of [data/stats.dat64]
    in place of the two rows of the file clicked last. *)
Lemma superseded_never_delivered_refuted :
  (length (rows (st (run W (take 7 World.overlapping) (boot W)))) = 2
   ∧ length (rows (st (run W World.overlapping (boot W)))) = 3
   ∧ rows (st (run W World.overlapping (boot W)))
     = rows (loadFileContent W 0 0 "data/stats.dat64" (mounted W)).2)
  ∧ ¬ superseded_never_delivered W.
Proof.
  split; [split_and!; vm_compute; reflexivity|]. intros Hclaim.
  destruct (Hclaim [Click "data/stats.dat64"]
              (replicate 5 (Resume 1 0 0) ++ replicate 4 (Resume 0 0 0))
              "data/mods.dat64" 0
              (mkRequest W "data/stats.dat64" AwaitContent) 0%Z 0%Z)
    as [Hrows _]; [reflexivity | discriminate |].
  apply (f_equal length) in Hrows. vm_compute in Hrows. discriminate Hrows.
Qed.

(** * Further properties of the component *)

(** ** Paths *)

Section path_facts.
Implicit Types (s pat parent name : string) (c : ascii).

Lemma includes_unfold s pat :
  Js.includes s pat =
  match Js.strip_prefix pat s with
  | Some _ => true
  | None => match s with
            | EmptyString => false
            | String _ s' => Js.includes s' pat
            end
  end.
Proof. by destruct s. Qed.

Lemma includes_app p pat q : Js.includes (p +:+ pat +:+ q) pat = true.
Proof.
  induction p as [|a p IH]; rewrite includes_unfold.
  - by rewrite string_app_nil, strip_prefix_app.
  - rewrite string_app_cons.
    by destruct (Js.strip_prefix pat (String a (p +:+ pat +:+ q))).
Qed.

Lemma includes_spec s pat :
  Js.includes s pat = true ↔ ∃ p q, s = p +:+ pat +:+ q.
Proof.
  split; [|intros (p & q & ->); apply includes_app].
  induction s as [|a s IH]; rewrite includes_unfold.
  - destruct (Js.strip_prefix pat EmptyString) as [r|] eqn:Hr; [|done].
    intros _. exists EmptyString, r. by apply strip_prefix_Some in Hr.
  - destruct (Js.strip_prefix pat (String a s)) as [r|] eqn:Hr.
    + intros _. exists EmptyString, r. by apply strip_prefix_Some in Hr.
    + intros (p & q & ->)%IH. by exists (String a p), q.
Qed.

Lemma split_nonempty c s : Js.split c s ≠ [].
Proof.
  destruct s as [|a s]; simpl; [done|].
  destruct (Ascii.eqb a c); [done|]. by destruct (Js.split c s).
Qed.

Lemma join_cons_char sep a part parts :
  Js.join sep (String a part :: parts)
  = String a (Js.join sep (part :: parts)).
Proof. by destruct parts. Qed.

Lemma join_cons sep part part' parts :
  Js.join sep (part :: part' :: parts)
  = part +:+ sep +:+ Js.join sep (part' :: parts).
Proof. done. Qed.

(** [split] and [join] with one separator undo each other. *)
Lemma join_split c s : Js.join (String c EmptyString) (Js.split c s) = s.
Proof.
  induction s as [|a s IH]; [done|]. simpl.
  destruct (Ascii.eqb_spec a c) as [->|Hne].
  - pose proof (split_nonempty c s) as Hparts.
    destruct (Js.split c s) as [|part parts]; [done|].
    by rewrite join_cons, IH.
  - pose proof (split_nonempty c s) as Hparts.
    destruct (Js.split c s) as [|part parts]; [done|].
    by rewrite join_cons_char, IH.
Qed.

(** The parts behind the last separator. *)
Lemma split_snoc c parent name :
  Js.has_char c name = false →
  Js.split c (parent +:+ String c name) = Js.split c parent ++ [name].
Proof.
  intros Hname. induction parent as [|a parent IH].
  - rewrite string_app_nil. simpl.
    by rewrite Ascii.eqb_refl, (split_no_sep _ _ Hname).
  - rewrite string_app_cons. simpl. rewrite IH.
    destruct (Ascii.eqb a c); [done|].
    pose proof (split_nonempty c parent) as Hparts.
    by destruct (Js.split c parent).
Qed.

(** A string that holds the separator ends with a part that does not. *)
Lemma last_separator c s :
  Js.has_char c s = true →
  ∃ parent name, s = parent +:+ String c name ∧ Js.has_char c name = false.
Proof.
  induction s as [|a s IH]; [done|]. simpl.
  destruct (Js.has_char c s) eqn:Hs.
  - intros _. destruct IH as (parent & name & -> & Hname); [done|].
    by exists (String a parent), name.
  - rewrite orb_false_r. intros ->%Ascii.eqb_eq. by exists EmptyString, s.
Qed.

(** The path that [goUp] loads. *)
Lemma parent_of_nested parent name :
  Js.has_char "/" name = false →
  Js.join "/" (Js.pop (Js.split "/" (parent +:+ "/" +:+ name))) = parent.
Proof.
  intros Hname. change (parent +:+ "/" +:+ name)
    with (parent +:+ String "/" name).
  rewrite (split_snoc _ _ _ Hname). unfold Js.pop.
  rewrite removelast_last. apply join_split.
Qed.

End path_facts.

Section navigation_more.
Context (E : Collaborators).

Lemma goUp_nested (s : State) (parent name : string) :
  currentPath s = parent +:+ "/" +:+ name →
  Js.has_char "/" name = false →
  goUp E s = loadDirContents E parent s.
Proof.
  intros Hpath Hname. rewrite goUp_unfold, Hpath.
  rewrite (parent_of_nested _ _ Hname).
  assert (Js.truthy (parent +:+ "/" +:+ name) = true) as ->; [|done].
  by destruct parent.
Qed.

(** X1: from a directory below the top level, [parent/name] with no [/]
    in [name], [goUp] loads [parent]: what [loadDirContents parent] does to
    the state. *)
Theorem goUp_loads_parent (s : State) (parent name : string) :
  currentPath s = parent +:+ "/" +:+ name →
  Js.has_char "/" name = false →
  goUp E s = loadDirContents E parent s
  ∧ currentPath (goUp E s) = parent
  ∧ Dir.files (dirContents (goUp E s))
    = filter (λ file, Is_true (Js.endsWith file ".dat64"))
        (Dir.files (default (Dir.mk [] []) (index_getDirContent E parent))).
Proof.
  intros Hpath Hname. by rewrite (goUp_nested s parent name Hpath Hname).
Qed.

Lemma goUp_shorter (s : State) :
  currentPath s ≠ EmptyString →
  String.length (currentPath (goUp E s)) < String.length (currentPath s).
Proof.
  intros Hne. destruct (Js.has_char "/" (currentPath s)) eqn:Hslash.
  - destruct (last_separator _ _ Hslash) as (parent & name & Hpath & Hname).
    rewrite (goUp_nested s parent name Hpath Hname).
    change (currentPath (loadDirContents E parent s)) with parent.
    rewrite Hpath, string_length_app. simpl. lia.
  - rewrite goUp_unfold. unfold Js.truthy.
    rewrite bool_decide_eq_true_2 by done.
    rewrite (split_no_sep _ _ Hslash). simpl.
    destruct (currentPath s); [done|simpl; lia].
Qed.

Lemma goUp_at_root (s : State) : currentPath s = EmptyString → goUp E s = s.
Proof. intros Hroot. by rewrite goUp_unfold, Hroot. Qed.

(** X2: [goUp] never lengthens the current path, and pressing Go Up as
    many times as the path has characters (or more) ends at the root, where
    the template no longer shows the button. *)
Theorem goUp_reaches_root (n : nat) (s : State) :
  String.length (currentPath (goUp E s)) ≤ String.length (currentPath s)
  ∧ (String.length (currentPath s) ≤ n →
     currentPath (Nat.iter n (goUp E) s) = EmptyString
     ∧ showsGoUp (Nat.iter n (goUp E) s) = false).
Proof.
  split.
  - destruct (decide (currentPath s = EmptyString)) as [Hroot|Hne].
    + by rewrite (goUp_at_root s Hroot).
    + pose proof (goUp_shorter s Hne). lia.
  - revert s. induction n as [|n IH]; intros s Hlen.
    + simpl. unfold showsGoUp. destruct (currentPath s); [done|simpl in Hlen; lia].
    + rewrite Nat.iter_succ_r. apply IH.
      destruct (decide (currentPath s = EmptyString)) as [Hroot|Hne].
      * rewrite (goUp_at_root s Hroot), Hroot. simpl. lia.
      * pose proof (goUp_shorter s Hne). lia.
Qed.

(** X3: the label of a file button is never [undefined] and holds no [/]:
    it is the whole path when the path has no [/], and what stands behind
    the last [/] otherwise. *)
Theorem fileLabel_is_last_part (file : string) :
  is_Some (fileLabel file)
  ∧ (∀ label, fileLabel file = Some label →
       Js.has_char "/" label = false
       ∧ (file = label ∨ ∃ parent, file = parent +:+ "/" +:+ label))
  ∧ (∀ parent name, file = parent +:+ "/" +:+ name →
       Js.has_char "/" name = false → fileLabel file = Some name).
Proof.
  unfold fileLabel.
  assert (∀ parent name, file = parent +:+ "/" +:+ name →
            Js.has_char "/" name = false →
            last (Js.split "/" file) = Some name) as Hnested.
  { intros parent name -> Hname.
    change (parent +:+ "/" +:+ name) with (parent +:+ String "/" name).
    by rewrite (split_snoc _ _ _ Hname), last_snoc. }
  assert (∃ label, last (Js.split "/" file) = Some label
                   ∧ Js.has_char "/" label = false
                   ∧ (file = label ∨ ∃ parent, file = parent +:+ "/" +:+ label))
    as (label & Hlabel & Hchar & Hfile).
  { destruct (Js.has_char "/" file) eqn:Hslash.
    - destruct (last_separator _ _ Hslash) as (parent & name & Hfile & Hname).
      exists name. rewrite (Hnested parent name Hfile Hname).
      split_and!; [done..|]. right. by exists parent.
    - exists file. rewrite (split_no_sep _ _ Hslash). by split_and!; [..|left]. }
  split_and!; [by eauto| |exact Hnested].
  intros label'. rewrite Hlabel. by intros [= <-].
Qed.

(** X4: the files on screen are the files of the directory that contain
    the search term, in the directory's order; with an empty search term
    that is every file.  After [loadDirContents] they are the files of the
    index's answer that end with [.dat64] and contain the search term. *)
Theorem filteredFiles_contain_search_term (s : State) (dirPath : string) :
  (∀ file,
     file ∈ filteredFiles s ↔
     file ∈ Dir.files (dirContents s)
     ∧ ∃ p q, file = p +:+ searchTerm s +:+ q)
  ∧ filteredFiles s `sublist_of` Dir.files (dirContents s)
  ∧ (∀ file,
       file ∈ filteredFiles (loadDirContents E dirPath s) ↔
       file ∈ Dir.files
                (default (Dir.mk [] []) (index_getDirContent E dirPath))
       ∧ (∃ stem, file = stem +:+ ".dat64")
       ∧ ∃ p q, file = p +:+ searchTerm s +:+ q).
Proof.
  assert (∀ s' file,
            file ∈ filteredFiles s' ↔
            file ∈ Dir.files (dirContents s')
            ∧ ∃ p q, file = p +:+ searchTerm s' +:+ q) as Hshown.
  { intros s' file. unfold filteredFiles, matchesSearch.
    rewrite list_elem_of_filter, Is_true_true.
    destruct (searchTerm s') as [|a term] eqn:Hterm.
    - simpl. split; [|tauto]. intros [_ ?]. split; [done|].
      by exists EmptyString, file.
    - simpl. rewrite includes_spec. tauto. }
  split_and!.
  - apply Hshown.
  - apply sublist_filter.
  - intros file. rewrite Hshown. unfold loadDirContents. simpl.
    rewrite list_elem_of_filter, Is_true_true, endsWith_spec. tauto.
Qed.

(** X5: [loadDirContents] writes [currentPath] and [dirContents] only: the
    table, the loading flag, the file content and the console stay as they
    are, so what the template shows of the table does not change; and of
    two calls in a row the second decides the state. *)
Theorem loadDirContents_keeps_table (dirPath dirPath' : string) (s : State) :
  loadDirContents E dirPath' (loadDirContents E dirPath s)
  = loadDirContents E dirPath' s
  ∧ rows (loadDirContents E dirPath s) = rows s
  ∧ headers (loadDirContents E dirPath s) = headers s
  ∧ loading (loadDirContents E dirPath s) = loading s
  ∧ fileContent (loadDirContents E dirPath s) = fileContent s
  ∧ datFile (loadDirContents E dirPath s) = datFile s
  ∧ console (loadDirContents E dirPath s) = console s
  ∧ dirs (loadDirContents E dirPath s) = dirs s
  ∧ searchTerm (loadDirContents E dirPath s) = searchTerm s
  ∧ view (loadDirContents E dirPath s) = view s
  ∧ view (goUp E s) = view s.
Proof.
  split_and!; try done.
  rewrite goUp_unfold. by destruct (Js.truthy (currentPath s)).
Qed.

End navigation_more.

(** ** Column toggles *)

Section toggles.
Context {A : Type}.
Implicit Types (array : list (option A)) (v : A).

Lemma length_array_set array index v :
  length (array_set array index v) = length array `max` S index.
Proof.
  unfold array_set. case_decide.
  - rewrite length_insert. lia.
  - rewrite !length_app, length_replicate. simpl. lia.
Qed.

Lemma element_array_set_eq array index v :
  element (array_set array index v) index = Some v.
Proof.
  unfold array_set, element. case_decide.
  - by rewrite list_lookup_insert_eq.
  - rewrite lookup_app_r by lia.
    rewrite lookup_app_r by (rewrite length_replicate; lia).
    by rewrite length_replicate, Nat.sub_diag.
Qed.

Lemma element_array_set_ne array index v j :
  j ≠ index → element (array_set array index v) j = element array j.
Proof.
  intros Hj. unfold array_set, element. case_decide.
  - by rewrite list_lookup_insert_ne.
  - destruct (decide (j < length array)).
    + by rewrite lookup_app_l.
    + rewrite (proj2 (lookup_ge_None array j)) by lia.
      rewrite lookup_app_r by lia.
      destruct (decide (j < index)).
      * rewrite lookup_app_l by (rewrite length_replicate; lia).
        rewrite lookup_replicate_2; [done|lia].
      * rewrite lookup_app_r by (rewrite length_replicate; lia).
        rewrite length_replicate.
        destruct (j - length array - (index - length array)) eqn:Hd; [lia|done].
Qed.

End toggles.

Lemma toggleColumn_defined (index : nat) (showBytesByColumn : Toggles)
    (b : bool) :
  showBytesByColumn !! index = Some (Some b) →
  toggleColumn index showBytesByColumn
  = <[index := Some (negb b)]> showBytesByColumn.
Proof.
  intros Hb. unfold toggleColumn, array_set, element. rewrite Hb.
  apply lookup_lt_Some in Hb. by rewrite decide_True.
Qed.

Lemma toggleColumn_twice_defined (index : nat) (showBytesByColumn : Toggles)
    (b : bool) :
  showBytesByColumn !! index = Some (Some b) →
  toggleColumn index (toggleColumn index showBytesByColumn)
  = showBytesByColumn.
Proof.
  intros Hb. rewrite (toggleColumn_defined _ _ b Hb).
  rewrite (toggleColumn_defined _ _ (negb b)).
  - rewrite list_insert_insert_eq, negb_involutive. by apply list_insert_id.
  - apply list_lookup_insert_eq. by apply lookup_lt_Some in Hb.
Qed.

Lemma toggleColumn_entry (index : nat) (showBytesByColumn : Toggles) :
  element (toggleColumn index showBytesByColumn) index
  = Some (js_not (element showBytesByColumn index)).
Proof. apply element_array_set_eq. Qed.

Lemma length_toggleColumn (index : nat) (showBytesByColumn : Toggles) :
  length (toggleColumn index showBytesByColumn)
  = length showBytesByColumn `max` S index.
Proof. apply length_array_set. Qed.

(** X6: [toggleColumn] sets the entry of its column to the negation of
    what the column read before, [undefined] reading as false; every other
    column reads as before, and the array grows to hold the column when it
    lies beyond the end. *)
Theorem toggleColumn_flips_one_column (index : nat)
    (showBytesByColumn : Toggles) :
  element (toggleColumn index showBytesByColumn) index
  = Some (js_not (element showBytesByColumn index))
  ∧ (∀ j, j ≠ index →
       element (toggleColumn index showBytesByColumn) j
       = element showBytesByColumn j)
  ∧ length (toggleColumn index showBytesByColumn)
    = length showBytesByColumn `max` S index.
Proof.
  split_and!.
  - apply toggleColumn_entry.
  - intros j Hj. by apply element_array_set_ne.
  - apply length_toggleColumn.
Qed.

(** X7: toggling a column twice gives back the array when the column held
    a boolean.  A column never toggled before reads [false] after two
    toggles, no longer [undefined], and a third toggle always undoes the
    second. *)
Theorem toggleColumn_twice (index : nat) (showBytesByColumn : Toggles) :
  (∀ b, showBytesByColumn !! index = Some (Some b) →
        toggleColumn index (toggleColumn index showBytesByColumn)
        = showBytesByColumn)
  ∧ (element showBytesByColumn index = None →
     element (toggleColumn index (toggleColumn index showBytesByColumn)) index
     = Some false)
  ∧ toggleColumn index
      (toggleColumn index (toggleColumn index showBytesByColumn))
    = toggleColumn index showBytesByColumn.
Proof.
  split_and!.
  - apply toggleColumn_twice_defined.
  - intros Hnone. by rewrite !toggleColumn_entry, Hnone.
  - pose proof (toggleColumn_entry index showBytesByColumn) as Hentry.
    pose proof (length_toggleColumn index showBytesByColumn) as Hlen.
    apply (toggleColumn_twice_defined _ _
             (js_not (element showBytesByColumn index))).
    unfold element in Hentry at 1.
    destruct (toggleColumn index showBytesByColumn !! index) as [v|] eqn:Hv.
    + by rewrite Hentry.
    + apply lookup_ge_None in Hv. lia.
Qed.

(** ** Rows and names, further *)

Section rows_more.
Context (E : Collaborators).
Implicit Types (d : DatFile.t) (hs : list Header.t) (row : Row).



(** X9: a column shorter than the table leaves [undefined] in the rows
    beyond its end: the row has the header's key all the same, and the
    value under it is [undefined]. *)
Theorem short_column_gives_undefined startTime endTime d hs1 h hs2 key i
    row :
  Header.named h = Some key → key ≠ "__proto__" →
  Forall (λ h', Header.named h' ≠ Some key) hs2 →
  length (readColumn E h d) ≤ i →
  (extractRows E startTime endTime d (hs1 ++ h :: hs2)).1 !! i = Some row →
  row !! key = Some JUndefined ∧ key ∈ dom row.
Proof.
  intros Hh Hkey Hhs2 Hshort [_ ->]%extractRows_lookup.
  rewrite (extractRow_last_wins E d i hs1 h hs2 key Hh Hkey Hhs2).
  assert (cellOf E d i h = JUndefined) as Hcell.
  { unfold cellOf. by rewrite (proj2 (lookup_ge_None _ _) Hshort). }
  split; [by rewrite Hcell|].
  apply elem_of_dom. rewrite (extractRow_last_wins E d i hs1 h hs2 key Hh Hkey Hhs2).
  eauto.
Qed.

Lemma omap_NoDup_lookup {A B} (f : A → option B) (l : list A) i j a b x :
  NoDup (omap f l) → l !! i = Some a → l !! j = Some b →
  f a = Some x → f b = Some x → i = j.
Proof.
  revert i j. induction l as [|a0 l IH]; intros i j Hnodup Hi Hj Ha Hb; [done|].
  rewrite omap_cons in Hnodup.
  assert (∀ k c, l !! k = Some c → f c = Some x → x ∈ omap f l) as Hin.
  { intros k c Hk Hc. apply list_elem_of_omap. exists c. split; [|done].
    by apply list_elem_of_lookup_2 in Hk. }
  destruct i as [|i], j as [|j]; simplify_eq/=.
  - done.
  - rewrite Ha in Hnodup. apply NoDup_cons in Hnodup as [Hx _].
    destruct Hx. by eapply Hin.
  - rewrite Hb in Hnodup. apply NoDup_cons in Hnodup as [Hx _].
    destruct Hx. by eapply Hin.
  - f_equal. apply IH; try done.
    destruct (f a0); [by apply NoDup_cons in Hnodup as [_ ?]|done].
Qed.

(** X10: with header names that differ from one another, what a header's
    column holds at row [i] can be read back from row [i] under the
    header's name. *)
Theorem distinct_names_read_back startTime endTime d hs h key i row :
  NoDup (omap Header.named hs) →
  h ∈ hs → Header.named h = Some key → key ≠ "__proto__" →
  (extractRows E startTime endTime d hs).1 !! i = Some row →
  row !! key = Some (cellOf E d i h).
Proof.
  intros Hnodup Hh Hnamed Hkey Hrow.
  apply list_elem_of_split in Hh as (hs1 & hs2 & ->).
  apply extractRows_lookup in Hrow as [_ ->].
  apply extractRow_last_wins; [done..|].
  rewrite omap_app, omap_cons, Hnamed in Hnodup.
  apply NoDup_app in Hnodup as (_ & _ & [Hnot _]%NoDup_cons).
  apply Forall_forall. intros h' Hh' Hn. apply Hnot.
  apply list_elem_of_omap. by exists h'.
Qed.

End rows_more.

Section names_more.
Implicit Types (hs : list Header.t).

Lemma placeholder_inj (i j : nat) : placeholder i = placeholder j → i = j.
Proof.
  unfold placeholder. intros Heq.
  apply (inj (String.app "Unnamed ")) in Heq. by apply (inj pretty) in Heq.
Qed.

Lemma omap_all_lookup {A B} (f : A → option B) (l : list A) (i : nat) :
  Forall (λ x, is_Some (f x)) l → omap f l !! i = l !! i ≫= f.
Proof.
  intros Hall. revert i. induction Hall as [|a l [y Hy] _ IH]; intros i.
  - done.
  - rewrite omap_cons, Hy. destruct i as [|i]; simpl; [done|apply IH].
Qed.

(** The name that the header at position [k] has after the naming pass. *)
Lemma names_lookup hs k x :
  omap Header.named (assignNames hs) !! k = Some x →
  ∃ h, hs !! k = Some h
       ∧ x = match Header.named h with
             | Some n => n
             | None => placeholder k
             end.
Proof.
  rewrite omap_all_lookup by apply assignNames_all_named.
  destruct (hs !! k) as [h|] eqn:Hk.
  - rewrite (assignNames_lookup _ _ _ Hk). simpl. rewrite assigned_name.
    intros [= <-]. eauto.
  - apply lookup_ge_None in Hk.
    rewrite (proj2 (lookup_ge_None (assignNames hs) k)); [done|].
    by rewrite length_assignNames.
Qed.

(** X11: the naming pass changes names only: offsets, types and lengths
    stay as they are, in the same order, and afterwards every header has a
    name that [extractRows] takes as one, so no header is skipped. *)
Theorem assignNames_changes_names_only hs :
  Header.offset <$> assignNames hs = Header.offset <$> hs
  ∧ Header.type <$> assignNames hs = Header.type <$> hs
  ∧ Header.length <$> assignNames hs = Header.length <$> hs
  ∧ Forall (λ h, is_Some (Header.named h)) (assignNames hs)
  ∧ length (omap Header.named (assignNames hs)) = length hs.
Proof.
  split_and!.
  - unfold assignNames. rewrite fmap_imap. apply imap_const.
  - unfold assignNames. rewrite fmap_imap. apply imap_const.
  - unfold assignNames. rewrite fmap_imap. apply imap_const.
  - apply assignNames_all_named.
  - rewrite length_omap_all by apply assignNames_all_named.
    apply length_assignNames.
Qed.

Lemma names_distinct hs :
  NoDup (omap Header.named hs) →
  (∀ k h, hs !! k = Some h → Header.named h = None →
          placeholder k ∉ omap Header.named hs) →
  NoDup (omap Header.named (assignNames hs)).
Proof.
  intros Hnodup Hfresh. apply NoDup_alt. intros i j x Hi Hj.
  apply names_lookup in Hi as (hi & Hi & Hxi).
  apply names_lookup in Hj as (hj & Hj & Hxj).
  assert (∀ k h, hs !! k = Some h → Header.named h = Some x →
                 x ∈ omap Header.named hs) as Hin.
  { intros k h Hk Hn. apply list_elem_of_omap. exists h. split; [|done].
    by apply list_elem_of_lookup_2 in Hk. }
  destruct (Header.named hi) as [ni|] eqn:Hni,
           (Header.named hj) as [nj|] eqn:Hnj; subst.
  - by eapply (omap_NoDup_lookup Header.named hs i j hi hj).
  - destruct (Hfresh j hj Hj Hnj). exact (Hin i hi Hi Hni).
  - destruct (Hfresh i hi Hi Hni). exact (Hin j hj Hj Hnj).
  - by apply placeholder_inj.
Qed.

End names_more.

Section names_and_rows.
Context (E : Collaborators).

(** X12: when the declared names differ from one another, none of them is
    the placeholder of an unnamed header, and none is [__proto__], the
    names after the naming pass differ from one another and every row has
    exactly one entry per header. *)
Theorem fresh_placeholders_give_full_rows startTime endTime
    (d : DatFile.t) (hs : list Header.t) :
  NoDup (omap Header.named hs) →
  (∀ k h, hs !! k = Some h → Header.named h = None →
          placeholder k ∉ omap Header.named hs) →
  "__proto__" ∉ omap Header.named hs →
  NoDup (omap Header.named (assignNames hs))
  ∧ Forall (λ row : Row, size row = length hs)
      (extractRows E startTime endTime d (assignNames hs)).1.
Proof.
  intros Hnodup Hfresh Hproto.
  pose proof (names_distinct hs Hnodup Hfresh) as Hnames.
  split; [done|].
  assert ("__proto__" ∉ omap Header.named (assignNames hs)) as Hproto'.
  { intros (k & Hk)%list_elem_of_lookup_1.
    apply names_lookup in Hk as (h & Hk & Hx).
    destruct (Header.named h) as [n|] eqn:Hn; [|done]. subst n.
    apply Hproto, list_elem_of_omap. exists h. split; [|done].
    by apply list_elem_of_lookup_2 in Hk. }
  rewrite extractRows_rows. apply Forall_fmap, Forall_forall. intros i _.
  simpl. rewrite size_extractRow, (keys_no_proto _ Hproto').
  rewrite (remove_dups_NoDup_id _ Hnames).
  rewrite length_omap_all by apply assignNames_all_named.
  apply length_assignNames.
Qed.

End names_and_rows.

(** ** Outcomes of [loadFileContent] *)

Section outcomes.
Context (E : Collaborators).
Implicit Types (d : DatFile.t) (s : State).

(** X13: when the parser throws, [loadFileContent] is rejected with the
    parser's message.  The file content has been assigned by then; the
    table read before, the headers, the rows and the console stay as they
    were, and [loading] stays set, so the loading indicator is shown. *)
Theorem parser_error_rejects startTime endTime filePath s message :
  readDatFile E filePath (index_loadFileContent E filePath) = Throw message →
  (loadFileContent E startTime endTime filePath s).1 = Rejected message
  ∧ fileContent (loadFileContent E startTime endTime filePath s).2
    = Some (index_loadFileContent E filePath)
  ∧ datFile (loadFileContent E startTime endTime filePath s).2 = datFile s
  ∧ rows (loadFileContent E startTime endTime filePath s).2 = rows s
  ∧ headers (loadFileContent E startTime endTime filePath s).2 = headers s
  ∧ console (loadFileContent E startTime endTime filePath s).2 = console s
  ∧ view (loadFileContent E startTime endTime filePath s).2 = LoadingSpinner.
Proof.
  intros Hthrow. by rewrite (loadFileContent_throws E _ _ _ _ _ Hthrow).
Qed.

(** X14: however it ends, [loadFileContent] leaves the directory side of
    the component alone (current path, directory contents, root
    directories, search term, and so the files on screen), assigns the
    file content, and writes at most one line to the console, behind those
    already there. *)
Theorem loadFileContent_keeps_directory startTime endTime filePath s :
  currentPath (loadFileContent E startTime endTime filePath s).2
  = currentPath s
  ∧ dirContents (loadFileContent E startTime endTime filePath s).2
    = dirContents s
  ∧ dirs (loadFileContent E startTime endTime filePath s).2 = dirs s
  ∧ searchTerm (loadFileContent E startTime endTime filePath s).2
    = searchTerm s
  ∧ filteredFiles (loadFileContent E startTime endTime filePath s).2
    = filteredFiles s
  ∧ fileContent (loadFileContent E startTime endTime filePath s).2
    = Some (index_loadFileContent E filePath)
  ∧ console s `prefix_of`
      console (loadFileContent E startTime endTime filePath s).2
  ∧ length (console (loadFileContent E startTime endTime filePath s).2)
    ≤ S (length (console s)).
Proof.
  unfold loadFileContent.
  destruct (readDatFile E filePath (index_loadFileContent E filePath))
    as [d|message].
  - destruct (fromSerializedHeaders E (db_findByName E (schemaName filePath))
                (analyzeDatFile E d) d) as [headersResult|];
      cbn; split_and!; try done;
      try apply prefix_app_r; try done; rewrite length_app; simpl; lia.
  - cbn. split_and!; try done. lia.
Qed.


End outcomes.

(** X16: a file below [data/] with the extension [.dat64] and no other
    [.dat64] in its path has the path between the two as its schema name,
    subdirectories included. *)
Theorem schemaName_of_data_file (stem : string) :
  Js.includes stem ".dat64" = false →
  schemaName ("data/" +:+ stem +:+ ".dat64") = stem
  ∧ Js.endsWith ("data/" +:+ stem +:+ ".dat64") ".dat64" = true.
Proof.
  intros Hstem. split.
  - unfold schemaName. rewrite replace_empty_prefix.
    by apply replace_empty_dat64_end.
  - apply (endsWith_app ("data/" +:+ stem) ".dat64").
Qed.

(** ** Requests, further *)

Section requests_more.
Context (E : Collaborators).
Implicit Types (sys : System E) (r : Request E) (evs : list Event).




Lemma resume_keeps_variables startTime endTime path (pc0 pc' : Pc E)
    (s s' : State) :
  resume E startTime endTime path pc0 s = (pc', s') →
  (pastContent (mkRequest E path pc0) = true → is_Some (fileContent s)) →
  (pastParse (mkRequest E path pc0) = true → is_Some (datFile s)) →
  (fileContent s' = None →
   fileContent s = None ∧ pastContent (mkRequest E path pc') = false)
  ∧ (datFile s' = None →
     datFile s = None ∧ pastParse (mkRequest E path pc') = false).
Proof.
  intros Hresume Hcontent Hparse.
  destruct pc0 as [|name|name stats|name stats|d hs|outcome];
    cbn [resume] in Hresume; cbn [pastContent pastParse pc] in Hcontent, Hparse.
  - injection Hresume as <- <-. by split.
  - destruct (fileContent s) as [content|] eqn:Hc.
    + destruct (readDatFile E path content); injection Hresume as <- <-.
      * split; [|done]. cbn. by rewrite Hc.
      * split; [by rewrite Hc|done].
    + by destruct Hcontent as [? ?].
  - injection Hresume as <- <-. split.
    + intros Hnone. destruct Hcontent as [? ?]; [done|congruence].
    + intros Hnone. destruct Hparse as [? ?]; [done|congruence].
  - destruct (datFile s) as [d|] eqn:Hd.
    + destruct (fromSerializedHeaders E (db_findByName E name) stats d);
        injection Hresume as <- <-.
      * split; [|cbn; by rewrite Hd].
        cbn. intros Hnone. destruct Hcontent as [? ?]; [done|congruence].
      * split; [|cbn; by rewrite Hd].
        cbn. intros Hnone. destruct Hcontent as [? ?]; [done|congruence].
    + by destruct Hparse as [? ?].
  - destruct (extractRows E startTime endTime d hs) as [rs line].
    injection Hresume as <- <-. by split.
  - injection Hresume as <- <-. by split.
Qed.

Lemma exec_keeps_variables ev sys :
  variablesAssigned sys → variablesAssigned (exec E ev sys).
Proof.
  intros [Hcontent Hparse].
  destruct ev as [path|k startTime endTime]; cbn [exec].
  - split; cbn [st requests]; intros Hnone; apply Forall_app; split;
      try (by apply Hcontent); try (by apply Hparse); by repeat constructor.
  - destruct (requests sys !! k) as [r|] eqn:Hk; [|by split].
    destruct (resume E startTime endTime (filePath r) (pc r) (st sys))
      as [pc' s'] eqn:Hresume.
    destruct r as [path pc0]. cbn [filePath pc] in Hresume.
    destruct (resume_keeps_variables _ _ _ _ _ _ _ Hresume) as [Hc' Hp'].
    + intros Hpast. destruct (fileContent (st sys)) eqn:Hc; [by eauto|].
      pose proof (Forall_lookup_1 _ _ _ _ (Hcontent eq_refl) Hk). congruence.
    + intros Hpast. destruct (datFile (st sys)) eqn:Hd; [by eauto|].
      pose proof (Forall_lookup_1 _ _ _ _ (Hparse eq_refl) Hk). congruence.
    + split; cbn [st requests]; intros Hnone.
      * destruct (Hc' Hnone) as [Hold Hnew].
        apply Forall_insert; [by apply Hcontent|done].
      * destruct (Hp' Hnone) as [Hold Hnew].
        apply Forall_insert; [by apply Hparse|done].
Qed.

(** X19: in every execution from the mounted component, a request that is
    past its first [await] finds [fileContent] assigned, and a request
    that waits for the worker or for the schema database finds [datFile]
    assigned: [readDatFile] never gets [null] for the content, nor
    [fromSerializedHeaders] for the table. *)
Theorem shared_variables_are_assigned evs (k : nat) r :
  requests (run E evs (boot E)) !! k = Some r →
  (pastContent r = true → is_Some (fileContent (st (run E evs (boot E)))))
  ∧ (pastParse r = true → is_Some (datFile (st (run E evs (boot E))))).
Proof.
  assert (variablesAssigned (run E evs (boot E))) as [Hcontent Hparse].
  { assert (variablesAssigned (boot E)) as Hboot by (by split).
    revert Hboot. generalize (boot E).
    induction evs as [|ev evs IH]; intros sys Hsys; [done|].
    rewrite run_cons. by apply IH, exec_keeps_variables. }
  intros Hk. split; intros Hpast.
  - destruct (fileContent (st (run E evs (boot E)))) eqn:Hc; [by eauto|].
    pose proof (Forall_lookup_1 _ _ _ _ (Hcontent eq_refl) Hk). congruence.
  - destruct (datFile (st (run E evs (boot E)))) eqn:Hd; [by eauto|].
    pose proof (Forall_lookup_1 _ _ _ _ (Hparse eq_refl) Hk). congruence.
Qed.

(** X20: [fileContent] belongs to the component, not to the request.
    When the content of a second file arrives while a request is between
    its first [await] and [readDatFile], the request parses the bytes of
    the second file under the path of its own. *)
Theorem request_parses_the_later_content sys (a b : nat) (pathA pathB : string)
    startTime endTime :
  a ≠ b →
  requests sys !! a = Some (mkRequest E pathA AwaitContent) →
  requests sys !! b = Some (mkRequest E pathB AwaitContent) →
  fileContent
    (st (run E [Resume a startTime endTime; Resume b startTime endTime;
                Resume a startTime endTime] sys))
  = Some (index_loadFileContent E pathB)
  ∧ ∀ d, readDatFile E pathA (index_loadFileContent E pathB) = Ok d →
      datFile
        (st (run E [Resume a startTime endTime; Resume b startTime endTime;
                    Resume a startTime endTime] sys))
      = Some d
      ∧ requests
          (run E [Resume a startTime endTime; Resume b startTime endTime;
                  Resume a startTime endTime] sys) !! a
        = Some (mkRequest E pathA
                  (AwaitAnalyze E (schemaName pathA) (analyzeDatFile E d))).
Proof.
  intros Hab Ha Hb. destruct sys as [s rs]. cbn [requests] in Ha, Hb.
  pose proof (lookup_lt_Some _ _ _ Ha) as Hla.
  pose proof (lookup_lt_Some _ _ _ Hb) as Hlb.
  unfold run. cbn [foldl exec requests st]. rewrite Ha.
  cbn [resume filePath pc requests st].
  rewrite list_lookup_insert_ne, Hb by done.
  cbn [resume filePath pc requests st].
  rewrite list_lookup_insert_ne by done.
  rewrite list_lookup_insert_eq by done.
  cbn [resume filePath pc requests st].
  change (fileContent (set_fileContent ?v _)) with v. cbv beta iota.
  destruct (readDatFile E pathA (index_loadFileContent E pathB)) as [d|message].
  - cbn [st requests]. split; [done|]. intros d' [= <-]. split; [done|].
    rewrite list_lookup_insert_eq; [done|].
    by rewrite !length_insert.
  - cbn [st requests]. split; [done|]. by intros.
Qed.

End requests_more.

(** ** The further properties at work on the files of [World] *)

Lemma goUp_loads_parent_witness :
  currentPath (goUp W (loadDirContents W "data/french" (mounted W))) = "data".
Proof.
  destruct (goUp_loads_parent W
              (loadDirContents W "data/french" (mounted W)) "data" "french")
    as (_ & Hpath & _); [reflexivity | reflexivity | exact Hpath].
Defined.

Lemma goUp_reaches_root_witness :
  currentPath
    (Nat.iter 11 (goUp W) (loadDirContents W "data/french" (mounted W)))
  = EmptyString.
Proof.
  destruct (goUp_reaches_root W 11
              (loadDirContents W "data/french" (mounted W)))
    as [_ Hroot].
  apply Hroot. vm_compute. lia.
Defined.

Lemma fileLabel_is_last_part_witness :
  fileLabel "data/french/mods.dat64" = Some "mods.dat64".
Proof.
  destruct (fileLabel_is_last_part "data/french/mods.dat64")
    as (_ & _ & Hnested).
  apply (Hnested "data/french" "mods.dat64"); reflexivity.
Defined.

Lemma toggleColumn_flips_one_column_witness :
  element (toggleColumn 2 [Some true]) 0 = Some true.
Proof.
  destruct (toggleColumn_flips_one_column 2 [Some true]) as (_ & Hothers & _).
  rewrite (Hothers 0) by lia. reflexivity.
Defined.

Lemma toggleColumn_twice_witness :
  toggleColumn 0 (toggleColumn 0 [Some true; None]) = [Some true; None].
Proof.
  destruct (toggleColumn_twice 0 [Some true; None]) as (Hback & _ & _).
  apply (Hback true). reflexivity.
Defined.


Lemma short_column_gives_undefined_witness :
  (extractRows shortColumns 0 0 World.statsTable
     [World.int4 (Some "A") 0]).1 !! 1 ≫= (.!! "A")
  = Some JUndefined.
Proof.
  destruct ((extractRows shortColumns 0 0 World.statsTable
               [World.int4 (Some "A") 0]).1 !! 1)
    as [row|] eqn:Hrow; [|vm_compute in Hrow; discriminate Hrow].
  destruct (short_column_gives_undefined shortColumns 0 0 World.statsTable
              [] (World.int4 (Some "A") 0) [] "A" 1 row) as [Hcell _];
    [reflexivity | vm_compute; discriminate | constructor
    | vm_compute; lia | exact Hrow |].
  simpl. exact Hcell.
Defined.

Lemma distinct_names_read_back_witness :
  (extractRows W 0 0 World.statsTable
     [World.int4 (Some "A") 0; World.int4 (Some "B") 4]).1
    !! 1 ≫= (.!! "B")
  = Some (JNum 20).
Proof.
  destruct ((extractRows W 0 0 World.statsTable
               [World.int4 (Some "A") 0; World.int4 (Some "B") 4]).1 !! 1)
    as [row|] eqn:Hrow; [|vm_compute in Hrow; discriminate Hrow].
  simpl.
  rewrite (distinct_names_read_back W 0 0 World.statsTable
             [World.int4 (Some "A") 0; World.int4 (Some "B") 4]
             (World.int4 (Some "B") 4) "B" 1 row).
  - vm_compute. reflexivity.
  - apply (bool_decide_unpack _). vm_compute. exact I.
  - right. left.
  - reflexivity.
  - vm_compute. discriminate.
  - exact Hrow.
Defined.

Lemma fresh_placeholders_give_full_rows_witness :
  Forall (λ row : Row, size row = 2)
    (extractRows W 0 0 World.statsTable
       (assignNames [World.int4 None 0; World.int4 (Some "B") 4])).1.
Proof.
  apply (λ H1 H2 H3,
           proj2 (fresh_placeholders_give_full_rows W 0 0 World.statsTable
                    [World.int4 None 0; World.int4 (Some "B") 4] H1 H2 H3)).
  - apply (bool_decide_unpack _). vm_compute. exact I.
  - intros k h Hk Hn. destruct k as [|[|k]]; simpl in Hk.
    + apply (bool_decide_unpack _). vm_compute. exact I.
    + injection Hk as <-. vm_compute in Hn. discriminate Hn.
    + discriminate Hk.
  - apply (bool_decide_unpack _). vm_compute. exact I.
Defined.

Lemma parser_error_rejects_witness :
  (loadFileContent W 0 0 "data/stats.dat" (mounted W)).1
  = Rejected "MalformedTable".
Proof.
  destruct (parser_error_rejects W 0 0 "data/stats.dat" (mounted W)
              "MalformedTable") as [Hrejected _];
    [vm_compute; reflexivity | exact Hrejected].
Defined.


Lemma schemaName_of_data_file_witness :
  schemaName "data/french/mods.dat64" = "french/mods".
Proof.
  destruct (schemaName_of_data_file "french/mods") as [Hname _];
    [vm_compute; reflexivity | exact Hname].
Defined.


Lemma shared_variables_are_assigned_witness :
  is_Some
    (fileContent
       (st (run W [Click "data/stats.dat64"; Resume 0 0 0] (boot W)))).
Proof.
  destruct (shared_variables_are_assigned W
              [Click "data/stats.dat64"; Resume 0 0 0] 0
              (mkRequest W "data/stats.dat64" (AwaitImports "stats")))
    as [Hcontent _]; [reflexivity|].
  apply Hcontent. reflexivity.
Defined.

Lemma request_parses_the_later_content_witness :
  datFile
    (st (run W [Resume 0 0 0; Resume 1 0 0; Resume 0 0 0]
           (run W [Click "data/stats.dat64"; Click "data/mods.dat64"]
              (boot W))))
  = Some World.modsTable.
Proof.
  destruct (request_parses_the_later_content W
              (run W [Click "data/stats.dat64"; Click "data/mods.dat64"]
                 (boot W))
              0 1 "data/stats.dat64" "data/mods.dat64" 0 0)
    as [_ Hparsed]; [lia | reflexivity | reflexivity |].
  destruct (Hparsed World.modsTable) as [Htable _];
    [vm_compute; reflexivity | exact Htable].
Defined.
